(** * claromate-website: the cloud scene of [src/script.js]

    A shallow embedding of the scene script (and of its debug twin, which
    has the same [createClouds], handlers and [animate], reading its
    settings from [debugParams] instead of [cloudSettings]).

    Numbers.  A JavaScript Number is modelled as an exact rational [Q]:
    decimal literals denote their decimal value and [+ - * /] are the field
    operations, so the rounding of IEEE-754 binary64 (and of the Float32
    vertex buffers and GLSL floats) is not modelled.  [%] is the truncated
    remainder of ECMAScript, whose sign follows the dividend.  Equality on
    numbers is [Qeq] ([==]).

    Objects.  Module-level [let] variables and the host objects the script
    mutates are fields of one explicit record, threaded through the
    handlers.  Objects with identity (geometries, materials) live in a heap
    and are named by references. *)

From stdpp Require Import gmap strings.
From Stdlib Require Import QArith Qround Qminmax Qpower ZArith List Lia Lqa.
Import ListNotations.

Local Open Scope Q_scope.

(** ** JavaScript numbers *)

Module Number.

(** Rounding toward zero, as in the quotient of the [%] operator. *)
Definition trunc (q : Q) : Z := Z.quot (Qnum q) (Zpos (Qden q)).

(** [a % b]: [a - b * trunc (a / b)]. *)
Definition rem (a b : Q) : Q := a - b * inject_Z (trunc (a / b)).

(** GLSL [clamp], [mix] and [smoothstep]. *)
Definition clamp (v lo hi : Q) : Q := Qmin (Qmax v lo) hi.
Definition mix (a b t : Q) : Q := a * (1 - t) + b * t.
Definition smoothstep (edge0 edge1 v : Q) : Q :=
  let t := clamp ((v - edge0) / (edge1 - edge0)) 0 1 in
  t * t * (3 - 2 * t).

End Number.

(** ** three.js value objects *)

Module Vector3.
Record t : Type := mk { x : Q; y : Q; z : Q }.
Definition setX (v : Q) (p : t) : t := mk v (y p) (z p).
Definition setY (v : Q) (p : t) : t := mk (x p) v (z p).
Definition setZ (v : Q) (p : t) : t := mk (x p) (y p) v.
End Vector3.

Module Euler.
Record t : Type := mk { x : Q; y : Q; z : Q }.
Definition setZ (v : Q) (r : t) : t := mk (x r) (y r) v.
End Euler.

Module Quaternion.
Record t : Type := mk { x : Q; y : Q; z : Q; w : Q }.
End Quaternion.

(** Column-major 4x4 matrix, [elements[0..15]] as [e0 .. e15]. *)
Module Matrix4.
Record t : Type := mk {
  e0 : Q; e1 : Q; e2 : Q; e3 : Q;
  e4 : Q; e5 : Q; e6 : Q; e7 : Q;
  e8 : Q; e9 : Q; e10 : Q; e11 : Q;
  e12 : Q; e13 : Q; e14 : Q; e15 : Q }.
Definition identity : t := mk 1 0 0 0  0 1 0 0  0 0 1 0  0 0 0 1.
End Matrix4.

(** [THREE.Object3D]: the fields the script reads or writes.  The
    quaternion is kept in step with [rotation] by three.js and is
    recomputed from it where it is read. *)
Record Object3D : Type := {
  position : Vector3.t;
  rotation : Euler.t;
  scale : Vector3.t;
  matrix : Matrix4.t;
  renderOrder : Q;
  visible : bool }.

(** [new THREE.Object3D()]. *)
Definition Object3D_new : Object3D :=
  {| position := Vector3.mk 0 0 0;
     rotation := Euler.mk 0 0 0;
     scale := Vector3.mk 1 1 1;
     matrix := Matrix4.identity;
     renderOrder := 0;
     visible := true |}.

Definition set_position (p : Vector3.t) (o : Object3D) : Object3D :=
  {| position := p; rotation := rotation o; scale := scale o;
     matrix := matrix o; renderOrder := renderOrder o;
     visible := visible o |}.

Definition set_rotation (r : Euler.t) (o : Object3D) : Object3D :=
  {| position := position o; rotation := r; scale := scale o;
     matrix := matrix o; renderOrder := renderOrder o;
     visible := visible o |}.

Definition set_scale (s : Vector3.t) (o : Object3D) : Object3D :=
  {| position := position o; rotation := rotation o; scale := s;
     matrix := matrix o; renderOrder := renderOrder o;
     visible := visible o |}.

Definition set_matrix (m : Matrix4.t) (o : Object3D) : Object3D :=
  {| position := position o; rotation := rotation o; scale := scale o;
     matrix := m; renderOrder := renderOrder o;
     visible := visible o |}.

Definition set_renderOrder (r : Q) (o : Object3D) : Object3D :=
  {| position := position o; rotation := rotation o; scale := scale o;
     matrix := matrix o; renderOrder := r;
     visible := visible o |}.

Definition set_visible (b : bool) (o : Object3D) : Object3D :=
  {| position := position o; rotation := rotation o; scale := scale o;
     matrix := matrix o; renderOrder := renderOrder o;
     visible := b |}.

(** ** Host and module state *)

Record Window : Type := { innerWidth : Q; innerHeight : Q }.

(** The off-screen canvas of [createBackground]. *)
Record Canvas : Type := { width : Q; height : Q }.

(** [THREE.PerspectiveCamera] extends [Object3D].  The projection matrix
    that [updateProjectionMatrix] recomputes is a function of these four
    numbers and is not kept as a field of its own. *)
Record PerspectiveCamera : Type := {
  camera_base : Object3D;
  fov : Q; aspect : Q; near : Q; far : Q }.

(** [THREE.WebGLRenderer]: its drawing-buffer size and the number of
    [render] calls issued so far. *)
Record WebGLRenderer : Type := { size : Q * Q; frames : nat }.

Record Globals : Type := {
  window : Window;
  mouseX : Q;
  mouseY : Q;
  startTime : Q;
  windowHalfX : Q;
  windowHalfY : Q;
  camera : PerspectiveCamera;
  renderer : WebGLRenderer;
  background : option Canvas }.

Definition set_mouse (mx my : Q) (g : Globals) : Globals :=
  {| window := window g; mouseX := mx; mouseY := my;
     startTime := startTime g;
     windowHalfX := windowHalfX g; windowHalfY := windowHalfY g;
     camera := camera g; renderer := renderer g;
     background := background g |}.

Definition set_windowHalf (hx hy : Q) (g : Globals) : Globals :=
  {| window := window g; mouseX := mouseX g; mouseY := mouseY g;
     startTime := startTime g;
     windowHalfX := hx; windowHalfY := hy;
     camera := camera g; renderer := renderer g;
     background := background g |}.

Definition set_camera (c : PerspectiveCamera) (g : Globals) : Globals :=
  {| window := window g; mouseX := mouseX g; mouseY := mouseY g;
     startTime := startTime g;
     windowHalfX := windowHalfX g; windowHalfY := windowHalfY g;
     camera := c; renderer := renderer g;
     background := background g |}.

Definition set_renderer (r : WebGLRenderer) (g : Globals) : Globals :=
  {| window := window g; mouseX := mouseX g; mouseY := mouseY g;
     startTime := startTime g;
     windowHalfX := windowHalfX g; windowHalfY := windowHalfY g;
     camera := camera g; renderer := r;
     background := background g |}.

Definition set_background (b : option Canvas) (g : Globals) : Globals :=
  {| window := window g; mouseX := mouseX g; mouseY := mouseY g;
     startTime := startTime g;
     windowHalfX := windowHalfX g; windowHalfY := windowHalfY g;
     camera := camera g; renderer := renderer g;
     background := b |}.

Definition set_window (w : Window) (g : Globals) : Globals :=
  {| window := w; mouseX := mouseX g; mouseY := mouseY g;
     startTime := startTime g;
     windowHalfX := windowHalfX g; windowHalfY := windowHalfY g;
     camera := camera g; renderer := renderer g;
     background := background g |}.

Definition set_aspect (a : Q) (c : PerspectiveCamera) : PerspectiveCamera :=
  {| camera_base := camera_base c;
     fov := fov c; aspect := a; near := near c; far := far c |}.

Definition set_camera_position (p : Vector3.t) (c : PerspectiveCamera)
  : PerspectiveCamera :=
  {| camera_base := set_position p (camera_base c);
     fov := fov c; aspect := aspect c; near := near c; far := far c |}.

(** [renderer.render(scene, camera)]: one more frame rasterised. *)
Definition render (g : Globals) : Globals :=
  set_renderer {| size := size (renderer g);
                  frames := S (frames (renderer g)) |} g.

(** [renderer.setSize(w, h)]. *)
Definition setSize (w h : Q) (g : Globals) : Globals :=
  set_renderer {| size := (w, h); frames := frames (renderer g) |} g.

(** ** Background painter *)

(** [createBackground]: a fresh 32 x innerHeight canvas becomes the page
    background; [renderer], [scene] and [camera] are initialised module
    constants by the time it can run, so the guarded render happens. *)
Definition createBackground (g : Globals) : Globals :=
  let canvas := {| width := 32; height := innerHeight (window g) |} in
  render (set_background (Some canvas) g).

(** ** Event listeners *)

Record MouseEvent : Type := { clientX : Q; clientY : Q }.
Record Touch : Type := { pageX : Q; pageY : Q }.
Record TouchEvent : Type := { touches : list Touch }.

Definition onDocumentMouseMove (event : MouseEvent) (g : Globals) : Globals :=
  set_mouse ((clientX event - windowHalfX g) * 0.05)
            ((clientY event - windowHalfY g) * 0.03) g.

Definition onDocumentTouchMove (event : TouchEvent) (g : Globals) : Globals :=
  match touches event with
  | [t0] =>
      set_mouse ((pageX t0 - windowHalfX g) * 0.05)
                ((pageY t0 - windowHalfY g) * 0.03) g
  | _ => g
  end.

Definition onWindowResize (g : Globals) : Globals :=
  let g1 := set_windowHalf (innerWidth (window g) / 2)
                           (innerHeight (window g) / 2) g in
  let g2 := set_camera
              (set_aspect (innerWidth (window g1) / innerHeight (window g1))
                          (camera g1)) g1 in
  let g3 := setSize (innerWidth (window g2)) (innerHeight (window g2)) g2 in
  createBackground g3.

(** ** Animation loop *)

(** The camera depth written by one tick, as a function of the elapsed
    time [Date.now() - startTime]. *)
Definition cameraDepth (elapsed : Q) : Q :=
  let position := Number.rem (elapsed * 0.03) 8000 in
  - position + 8000.

(** One run of [animate] when the host clock reads [now].  The
    [requestAnimationFrame] call only schedules the next run, which the
    host delivers as the next [Frame] event. *)
Definition animate (now : Q) (g : Globals) : Globals :=
  let p := position (camera_base (camera g)) in
  let position := Number.rem ((now - startTime g) * 0.03) 8000 in
  let x1 := Vector3.x p + (mouseX g - Vector3.x p) * 0.005 in
  let y1 := Vector3.y p + (- mouseY g - Vector3.y p) * 0.005 in
  let z1 := - position + 8000 in
  render (set_camera (set_camera_position (Vector3.mk x1 y1 z1) (camera g)) g).

(** Module start-up, up to the call of [init]: pointer target at the
    origin, the clock sampled, the camera created at depth 6000 and the
    renderer sized to the window. *)
Definition start (w : Window) (now : Q) : Globals :=
  {| window := w; mouseX := 0; mouseY := 0; startTime := now;
     windowHalfX := innerWidth w / 2; windowHalfY := innerHeight w / 2;
     camera := {| camera_base :=
                    set_position (Vector3.mk 0 0 6000) Object3D_new;
                  fov := 30; aspect := innerWidth w / innerHeight w;
                  near := 1; far := 10000 |};
     renderer := {| size := (innerWidth w, innerHeight w); frames := 0 |};
     background := None |}.

(** What the host can deliver to the page. *)
Inductive Event : Type :=
| MouseMove (event : MouseEvent)
| TouchMove (event : TouchEvent)
| Resize (w : Window)
| Frame (now : Q).

Definition dispatch (e : Event) (g : Globals) : Globals :=
  match e with
  | MouseMove event => onDocumentMouseMove event g
  | TouchMove event => onDocumentTouchMove event g
  | Resize w => onWindowResize (set_window w g)
  | Frame now => animate now g
  end.

Definition run (es : list Event) (g : Globals) : Globals :=
  fold_left (fun acc e => dispatch e acc) es g.

(** [n] consecutive frames at the given clock readings with no other
    event in between. *)
Fixpoint ticks (nows : list Q) (g : Globals) : Globals :=
  match nows with
  | [] => g
  | now :: rest => ticks rest (animate now g)
  end.

(** ** Cloud field builder *)

(** The settings object: [cloudSettings] in the scene script,
    [debugParams] (same fields, same values) in its debug twin. *)
Record Settings : Type := {
  fogColor : Z;
  fogNear : Q;
  fogFar : Q;
  shaderPower : Q;
  cloudOpacity : Q;
  enableSecondLayer : bool }.

Definition cloudSettings : Settings :=
  {| fogColor := 0x5ba0d0; fogNear := 100; fogFar := 2000;
     shaderPower := 15; cloudOpacity := 0.6; enableSecondLayer := true |}.

(** [Math.PI], the binary64 number nearest to pi, as an exact rational. *)
Definition Math_PI : Q := 884279719003555 # 281474976710656.

(** [Math.random]: the host's generator is a stream of draws and a cursor;
    each call returns the draw under the cursor and advances it. *)
Record RNG : Type := { draws : nat -> Q; next : nat }.

Definition Math_random (r : RNG) : Q * RNG :=
  (draws r (next r), {| draws := draws r; next := S (next r) |}).

(** An indexed [THREE.BufferGeometry]: the [position] and [uv] attributes
    and the index.  The [normal] attribute is carried by three.js as well;
    the cloud shader never reads it and it is left out. *)
Record BufferGeometry : Type := {
  attr_position : list Vector3.t;
  attr_uv : list (Q * Q);
  index : list nat }.

(** [new THREE.PlaneGeometry(width, height)] with the default single
    segment in each direction. *)
Definition PlaneGeometry (width height : Q) : BufferGeometry :=
  let width_half := width / 2 in
  let height_half := height / 2 in
  let vertex (ix iy : Q) :=
    Vector3.mk (ix * width - width_half) (- (iy * height - height_half)) 0 in
  {| attr_position := [vertex 0 0; vertex 1 0; vertex 0 1; vertex 1 1];
     attr_uv := [(0, 1); (1, 1); (0, 0); (1, 0)];
     index := [0; 2; 1; 2; 3; 1]%nat |}.

(** [Vector3.applyMatrix4]. *)
Definition Vector3_applyMatrix4 (m : Matrix4.t) (v : Vector3.t) : Vector3.t :=
  let x := Vector3.x v in
  let y := Vector3.y v in
  let z := Vector3.z v in
  let w := 1 / (Matrix4.e3 m * x + Matrix4.e7 m * y
                + Matrix4.e11 m * z + Matrix4.e15 m) in
  Vector3.mk
    ((Matrix4.e0 m * x + Matrix4.e4 m * y + Matrix4.e8 m * z
      + Matrix4.e12 m) * w)
    ((Matrix4.e1 m * x + Matrix4.e5 m * y + Matrix4.e9 m * z
      + Matrix4.e13 m) * w)
    ((Matrix4.e2 m * x + Matrix4.e6 m * y + Matrix4.e10 m * z
      + Matrix4.e14 m) * w).

(** [BufferGeometry.applyMatrix4]: every vertex position is transformed;
    uv and index are untouched. *)
Definition applyMatrix4 (m : Matrix4.t) (geo : BufferGeometry)
  : BufferGeometry :=
  {| attr_position := List.map (Vector3_applyMatrix4 m) (attr_position geo);
     attr_uv := attr_uv geo;
     index := index geo |}.

(** [Matrix4.compose(position, quaternion, scale)]. *)
Definition compose (position : Vector3.t) (quaternion : Quaternion.t)
    (scale : Vector3.t) : Matrix4.t :=
  let x := Quaternion.x quaternion in
  let y := Quaternion.y quaternion in
  let z := Quaternion.z quaternion in
  let w := Quaternion.w quaternion in
  let x2 := x + x in let y2 := y + y in let z2 := z + z in
  let xx := x * x2 in let xy := x * y2 in let xz := x * z2 in
  let yy := y * y2 in let yz := y * z2 in let zz := z * z2 in
  let wx := w * x2 in let wy := w * y2 in let wz := w * z2 in
  let sx := Vector3.x scale in
  let sy := Vector3.y scale in
  let sz := Vector3.z scale in
  Matrix4.mk
    ((1 - (yy + zz)) * sx) ((xy + wz) * sx) ((xz - wy) * sx) 0
    ((xy - wz) * sy) ((1 - (xx + zz)) * sy) ((yz + wx) * sy) 0
    ((xz + wy) * sz) ((yz - wx) * sz) ((1 - (xx + yy)) * sz) 0
    (Vector3.x position) (Vector3.y position) (Vector3.z position) 1.

(** Index merging of [mergeGeometries]: each geometry's indices are
    shifted by the number of vertices merged before it. *)
Fixpoint mergeIndex (indexOffset : nat) (geometries : list BufferGeometry)
  : list nat :=
  match geometries with
  | [] => []
  | geo :: rest =>
      List.map (fun j => (j + indexOffset)%nat) (index geo)
      ++ mergeIndex (indexOffset + length (attr_position geo)) rest
  end.

(** [BufferGeometryUtils.mergeGeometries] on indexed geometries that all
    carry the same attributes: attribute arrays are concatenated in order.
    On an empty array three.js fails (it reads [geometries[0]]); that is
    [None] here. *)
Definition mergeGeometries (geometries : list BufferGeometry)
  : option BufferGeometry :=
  match geometries with
  | [] => None
  | _ =>
      Some {| attr_position := concat (List.map attr_position geometries);
              attr_uv := concat (List.map attr_uv geometries);
              index := mergeIndex 0 geometries |}
  end.

(** The loop bound of [createClouds]. *)
Definition cloudCount : nat := Z.to_nat 8000.

(** *** Objects with identity *)

(** A loaded texture, named by its address. *)
Record Texture : Type := { url : string }.

(** [THREE.Color] built from a hex triplet; the conversion to channels is
    three.js's own and is not needed here. *)
Record Color : Type := { hex : Z }.
Definition Color_ofHex (h : Z) : Color := {| hex := h |}.

Module Fog.
Record t : Type := { color : Color; near : Q; far : Q }.
End Fog.

(** The [value] slot of a uniform; the constructor stands for its [type]
    tag (["t"], ["c"], ["f"]). *)
Inductive UniformValue : Type :=
| UTexture (value : Texture)
| UColor (value : Color)
| UFloat (value : Q).

(** [THREE.ShaderMaterial]: the uniforms object, keyed by name, and the
    flags the script sets.  Both script variants install the same shader
    pair, modelled as [fragmentShader] below. *)
Record ShaderMaterial : Type := {
  uniforms : gmap string UniformValue;
  depthWrite : bool;
  depthTest : bool;
  transparent : bool }.

(** References into the heap. *)
Definition ref : Type := nat.

Record Heap : Type := {
  geometries : gmap nat BufferGeometry;
  materials : gmap nat ShaderMaterial }.

Definition Heap_empty : Heap := {| geometries := ∅; materials := ∅ |}.

(** [new]: the object is stored under a reference not yet in use. *)
Definition alloc_geometry (geo : BufferGeometry) (h : Heap) : ref * Heap :=
  let r := fresh (dom (geometries h)) in
  (r, {| geometries := <[r := geo]> (geometries h);
         materials := materials h |}).

Definition alloc_material (mat : ShaderMaterial) (h : Heap) : ref * Heap :=
  let r := fresh (dom (materials h)) in
  (r, {| geometries := geometries h;
         materials := <[r := mat]> (materials h) |}).

(** [THREE.Mesh] extends [Object3D] with references to its geometry and
    its material. *)
Record Mesh : Type := {
  mesh_base : Object3D;
  geometry : ref;
  material : ref }.

(** [new THREE.Mesh(geometry, material)]. *)
Definition Mesh_new (geometry material : ref) : Mesh :=
  {| mesh_base := Object3D_new; geometry := geometry; material := material |}.

(** [Mesh.clone()]: a new mesh whose [Object3D] fields are copied by value
    and whose [geometry] and [material] are assigned from the source, that
    is, the same references. *)
Definition Mesh_clone (source : Mesh) : Mesh :=
  {| mesh_base := mesh_base source;
     geometry := geometry source;
     material := material source |}.

Definition set_mesh_base (f : Object3D -> Object3D) (m : Mesh) : Mesh :=
  {| mesh_base := f (mesh_base m);
     geometry := geometry m; material := material m |}.

(** [mesh.material.uniforms[name].value = v]: a write through the mesh's
    material reference. *)
Definition setUniform (m : Mesh) (name : string) (v : UniformValue)
    (h : Heap) : Heap :=
  match materials h !! material m with
  | Some mat =>
      {| geometries := geometries h;
         materials :=
           <[material m :=
               {| uniforms := <[name := v]> (uniforms mat);
                  depthWrite := depthWrite mat;
                  depthTest := depthTest mat;
                  transparent := transparent mat |}]> (materials h) |}
  | None => h
  end.

(** [mesh.material.uniforms[name].value]: a read through the mesh. *)
Definition getUniform (m : Mesh) (name : string) (h : Heap)
  : option UniformValue :=
  mat ← materials h !! material m; uniforms mat !! name.

(** [mesh.geometry], dereferenced. *)
Definition getGeometry (m : Mesh) (h : Heap) : option BufferGeometry :=
  geometries h !! geometry m.

Record Scene : Type := {
  scene_fog : option Fog.t;
  children : list Mesh }.

(** The heap, the scene, and the module variables [fog], [cloudMaterial],
    [cloudMesh] and [cloudMeshA] (unset until [createClouds] runs). *)
Record SceneState : Type := {
  heap : Heap;
  scene : Scene;
  var_fog : option Fog.t;
  var_cloudMaterial : option ref;
  var_cloudMesh : option Mesh;
  var_cloudMeshA : option Mesh }.

Definition SceneState_start : SceneState :=
  {| heap := Heap_empty;
     scene := {| scene_fog := None; children := [] |};
     var_fog := None; var_cloudMaterial := None;
     var_cloudMesh := None; var_cloudMeshA := None |}.

Section CloudField.

(** [Math.cos] and [Math.sin] of the host. *)
Variables Math_cos Math_sin : Q -> Q.

(** [Quaternion.setFromEuler] for the default order XYZ. *)
Definition setFromEuler (euler : Euler.t) : Quaternion.t :=
  let c1 := Math_cos (Euler.x euler / 2) in
  let c2 := Math_cos (Euler.y euler / 2) in
  let c3 := Math_cos (Euler.z euler / 2) in
  let s1 := Math_sin (Euler.x euler / 2) in
  let s2 := Math_sin (Euler.y euler / 2) in
  let s3 := Math_sin (Euler.z euler / 2) in
  Quaternion.mk (s1 * c2 * c3 + c1 * s2 * s3)
                (c1 * s2 * c3 - s1 * c2 * s3)
                (c1 * c2 * s3 + s1 * s2 * c3)
                (c1 * c2 * c3 - s1 * s2 * s3).

(** [Object3D.updateMatrix]. *)
Definition updateMatrix (o : Object3D) : Object3D :=
  set_matrix (compose (position o) (setFromEuler (rotation o)) (scale o)) o.

(** The body of the generation loop for index [i]: six draws, the
    transform written into the reused [planeObj], and the transformed
    clone of [planeGeo]. *)
Definition cloudBody (planeGeo : BufferGeometry) (i : nat)
    (planeObj : Object3D) (rng : RNG) : Object3D * RNG * BufferGeometry :=
  let '(u1, rng) := Math_random rng in
  let planeObj :=
    set_position (Vector3.setX (u1 * 1000 - 500) (position planeObj))
                 planeObj in
  let '(u2, rng) := Math_random rng in
  let '(u3, rng) := Math_random rng in
  let planeObj :=
    set_position (Vector3.setY ((- u2) * u3 * 200 - 15) (position planeObj))
                 planeObj in
  let planeObj :=
    set_position (Vector3.setZ (inject_Z (Z.of_nat i)) (position planeObj))
                 planeObj in
  let '(u4, rng) := Math_random rng in
  let planeObj :=
    set_rotation (Euler.setZ (u4 * Math_PI) (rotation planeObj))
                 planeObj in
  let '(u5, rng) := Math_random rng in
  let '(u6, rng) := Math_random rng in
  let s := u5 * u6 * 1.5 + 0.5 in
  let planeObj :=
    set_scale (Vector3.setX s (Vector3.setY s (scale planeObj)))
              planeObj in
  let planeObj := updateMatrix planeObj in
  let clonedPlaneGeo := applyMatrix4 (matrix planeObj) planeGeo in
  (planeObj, rng, clonedPlaneGeo).

(** [for (let i = ...; i < ...; i++)] with [count] iterations left. *)
Fixpoint cloudLoop (planeGeo : BufferGeometry) (count i : nat)
    (planeObj : Object3D) (rng : RNG) (geometries : list BufferGeometry)
  : Object3D * RNG * list BufferGeometry :=
  match count with
  | O => (planeObj, rng, geometries)
  | S count' =>
      let '(planeObj', rng', geo) := cloudBody planeGeo i planeObj rng in
      cloudLoop planeGeo count' (S i) planeObj' rng' (geometries ++ [geo])
  end.

(** The generation part of [createClouds]: the plane, the reused
    [planeObj] and the loop. *)
Definition cloudGeometries (rng : RNG) : list BufferGeometry * RNG :=
  let planeGeo := PlaneGeometry 64 64 in
  let planeObj := Object3D_new in
  let '(_, rng', geometries) :=
    cloudLoop planeGeo cloudCount 0 planeObj rng [] in
  (geometries, rng').

(** [createClouds]: fog, material, generation, merge, the two meshes.
    The result is [None] only where three.js would have thrown in
    [mergeGeometries]. *)
Definition createClouds (settings : Settings) (cloudTexture : Texture)
    (rng : RNG) (s : SceneState) : option (SceneState * RNG) :=
  let fog := {| Fog.color := Color_ofHex (fogColor settings);
                Fog.near := fogNear settings;
                Fog.far := fogFar settings |} in
  let sc := {| scene_fog := Some fog; children := children (scene s) |} in
  let '(cloudMaterial, h) :=
    alloc_material
      {| uniforms :=
           {[ "map" := UTexture cloudTexture;
              "fogColor" := UColor (Fog.color fog);
              "fogNear" := UFloat (Fog.near fog);
              "fogFar" := UFloat (Fog.far fog);
              "shaderPower" := UFloat (shaderPower settings);
              "cloudOpacity" := UFloat (cloudOpacity settings) ]};
         depthWrite := false;
         depthTest := false;
         transparent := true |} (heap s) in
  let '(geometries, rng') := cloudGeometries rng in
  match mergeGeometries geometries with
  | None => None
  | Some merged =>
      let '(mergedCloudGeo, h) := alloc_geometry merged h in
      let cloudMesh := Mesh_new mergedCloudGeo cloudMaterial in
      let cloudMesh := set_mesh_base (set_renderOrder 2) cloudMesh in
      let cloudMeshA := Mesh_clone cloudMesh in
      let cloudMeshA :=
        set_mesh_base
          (fun o => set_position (Vector3.setZ (-8000) (position o)) o)
          cloudMeshA in
      let cloudMeshA := set_mesh_base (set_renderOrder 1) cloudMeshA in
      let cloudMeshA :=
        set_mesh_base (set_visible (enableSecondLayer settings))
                      cloudMeshA in
      let sc := {| scene_fog := scene_fog sc;
                   children := children sc ++ [cloudMesh] |} in
      let sc := {| scene_fog := scene_fog sc;
                   children := children sc ++ [cloudMeshA] |} in
      Some ({| heap := h; scene := sc;
               var_fog := Some fog;
               var_cloudMaterial := Some cloudMaterial;
               var_cloudMesh := Some cloudMesh;
               var_cloudMeshA := Some cloudMeshA |}, rng')
  end.

(** [init]: background, clouds, and the first run of [animate], at clock
    reading [now]. *)
Definition init (settings : Settings) (cloudTexture : Texture) (now : Q)
    (rng : RNG) (g : Globals) (s : SceneState)
  : option (Globals * SceneState * RNG) :=
  let g := createBackground g in
  match createClouds settings cloudTexture rng s with
  | None => None
  | Some (s', rng') => Some (animate now g, s', rng')
  end.

End CloudField.

(** ** Fog shader *)

Module Vec3.
Record t : Type := mk { r : Q; g : Q; b : Q }.
End Vec3.

Module Vec4.
Record t : Type := mk { r : Q; g : Q; b : Q; a : Q }.
Definition rgb (c : t) : Vec3.t := Vec3.mk (r c) (g c) (b c).
Definition ofVec3 (c : Vec3.t) (w : Q) : t :=
  mk (Vec3.r c) (Vec3.g c) (Vec3.b c) w.
Definition setRgb (c3 : Vec3.t) (c : t) : t := ofVec3 c3 (a c).
Definition setA (w : Q) (c : t) : t := mk (r c) (g c) (b c) w.
Definition eq (c d : t) : Prop :=
  r c == r d /\ g c == g d /\ b c == b d /\ a c == a d.
End Vec4.

(** Component-wise [mix] on [vec3] and [vec4]. *)
Definition mix3 (c d : Vec3.t) (t : Q) : Vec3.t :=
  Vec3.mk (Number.mix (Vec3.r c) (Vec3.r d) t)
          (Number.mix (Vec3.g c) (Vec3.g d) t)
          (Number.mix (Vec3.b c) (Vec3.b d) t).

Definition mix4 (c d : Vec4.t) (t : Q) : Vec4.t :=
  Vec4.mk (Number.mix (Vec4.r c) (Vec4.r d) t)
          (Number.mix (Vec4.g c) (Vec4.g d) t)
          (Number.mix (Vec4.b c) (Vec4.b d) t)
          (Number.mix (Vec4.a c) (Vec4.a d) t).

(** The uniforms as the shader program sees them. *)
Record ShaderUniforms (sampler2D : Type) : Type := {
  u_map : sampler2D;
  u_fogColor : Vec3.t;
  u_fogNear : Q;
  u_fogFar : Q;
  u_shaderPower : Q;
  u_cloudOpacity : Q }.
Arguments u_map {sampler2D}.
Arguments u_fogColor {sampler2D}.
Arguments u_fogNear {sampler2D}.
Arguments u_fogFar {sampler2D}.
Arguments u_shaderPower {sampler2D}.
Arguments u_cloudOpacity {sampler2D}.

(** [gl_FragCoord]: only [z] and [w] are read. *)
Record FragCoord : Type := { frag_z : Q; frag_w : Q }.

Section Shader.

(** GLSL built-ins supplied by the GPU: texture lookup and [pow]. *)
Variable sampler2D : Type.
Variable texture2D : sampler2D -> Q * Q -> Vec4.t.
Variable pow : Q -> Q -> Q.

(** [cloudShader.fragmentShader], statement by statement; the result is
    the final [gl_FragColor]. *)
Definition fragmentShader (u : ShaderUniforms sampler2D)
    (gl_FragCoord : FragCoord) (vUv : Q * Q) : Vec4.t :=
  let depth := frag_z gl_FragCoord / frag_w gl_FragCoord in
  let fogFactor := Number.smoothstep (u_fogNear u) (u_fogFar u) depth in
  let texColor := texture2D (u_map u) vUv in
  let texColor :=
    Vec4.setRgb (mix3 (Vec4.rgb texColor) (Vec3.mk 1 1 1) 0.1) texColor in
  let gl_FragColor := texColor in
  let gl_FragColor :=
    Vec4.setA (Vec4.a gl_FragColor
               * pow (frag_z gl_FragCoord) (u_shaderPower u))
              gl_FragColor in
  let gl_FragColor :=
    mix4 gl_FragColor
         (Vec4.ofVec3 (u_fogColor u) (Vec4.a gl_FragColor))
         fogFactor in
  let gl_FragColor :=
    Vec4.setA (Vec4.a gl_FragColor * u_cloudOpacity u) gl_FragColor in
  gl_FragColor.

(** *** The stages as the design document words them *)

(** Sample the texture at the interpolated UV. *)
Definition stage_sample (u : ShaderUniforms sampler2D) (vUv : Q * Q)
  : Vec4.t :=
  texture2D (u_map u) vUv.

(** Lighten: each colour channel moves 10% of the way to white. *)
Definition stage_lighten (c : Vec4.t) : Vec4.t :=
  Vec4.mk (Vec4.r c + (1 - Vec4.r c) * 0.1)
          (Vec4.g c + (1 - Vec4.g c) * 0.1)
          (Vec4.b c + (1 - Vec4.b c) * 0.1)
          (Vec4.a c).

(** Depth falloff: alpha times screen-space depth to the exponent. *)
Definition stage_falloff (u : ShaderUniforms sampler2D)
    (gl_FragCoord : FragCoord) (c : Vec4.t) : Vec4.t :=
  Vec4.mk (Vec4.r c) (Vec4.g c) (Vec4.b c)
          (Vec4.a c * pow (frag_z gl_FragCoord) (u_shaderPower u)).

(** Fog: the colour moves toward the fog colour by the smoothstep of
    the view-space depth between the near and far thresholds. *)
Definition stage_fog (u : ShaderUniforms sampler2D)
    (gl_FragCoord : FragCoord) (c : Vec4.t) : Vec4.t :=
  let f := Number.smoothstep (u_fogNear u) (u_fogFar u)
             (frag_z gl_FragCoord / frag_w gl_FragCoord) in
  Vec4.mk (Vec4.r c + (Vec3.r (u_fogColor u) - Vec4.r c) * f)
          (Vec4.g c + (Vec3.g (u_fogColor u) - Vec4.g c) * f)
          (Vec4.b c + (Vec3.b (u_fogColor u) - Vec4.b c) * f)
          (Vec4.a c).

(** Global opacity: alpha times [cloudOpacity]. *)
Definition stage_opacity (u : ShaderUniforms sampler2D) (c : Vec4.t)
  : Vec4.t :=
  Vec4.mk (Vec4.r c) (Vec4.g c) (Vec4.b c)
          (Vec4.a c * u_cloudOpacity u).

Definition shader_stages (u : ShaderUniforms sampler2D)
    (gl_FragCoord : FragCoord) (vUv : Q * Q) : Vec4.t :=
  stage_opacity u
    (stage_fog u gl_FragCoord
       (stage_falloff u gl_FragCoord
          (stage_lighten (stage_sample u vUv)))).

End Shader.

(** ** Observations *)

(** [camera.position.x], [.y] and [.z]. *)
Definition camX (g : Globals) : Q :=
  Vector3.x (position (camera_base (camera g))).
Definition camY (g : Globals) : Q :=
  Vector3.y (position (camera_base (camera g))).
Definition camZ (g : Globals) : Q :=
  Vector3.z (position (camera_base (camera g))).

(** A page in a 1280 x 720 window, started when the clock read 1000. *)
Definition exampleGlobals : Globals :=
  start {| innerWidth := 1280; innerHeight := 720 |} 1000.

(** The pointer moved to client (1640, 160) in that window: target
    (50, -6), camera still at the origin. *)
Definition examplePointed : Globals :=
  onDocumentMouseMove {| clientX := 1640; clientY := 160 |} exampleGlobals.

(** A two-finger touch. *)
Definition examplePinch : TouchEvent :=
  {| touches := [ {| pageX := 100; pageY := 200 |};
                  {| pageX := 300; pageY := 400 |} ] |}.

(** A generator stuck at 1/2. *)
Definition exampleRNG : RNG := {| draws := fun _ => 1 # 2; next := 0 |}.

(** Pointer-moving events. *)
Definition isPointerEvent (e : Event) : bool :=
  match e with
  | MouseMove _ => true
  | TouchMove event => match touches event with [_] => true | _ => false end
  | _ => false
  end.

(** The buffers of one unsubdivided quad: four vertices, four uvs and two
    triangles. *)
Definition quadShape (geo : BufferGeometry) : Prop :=
  length (attr_position geo) = 4%nat
  /\ length (attr_uv geo) = 4%nat
  /\ length (index geo) = 6%nat.

(** A quad as the generation loop leaves it for index [i]: every vertex
    at depth [i]. *)
Definition quadAt (i : nat) (geo : BufferGeometry) : Prop :=
  quadShape geo
  /\ Forall (fun v => Vector3.z v == inject_Z (Z.of_nat i)) (attr_position geo).

(** The fields of the reused [planeObj] that the loop never writes. *)
Definition planeObjUntouched (o : Object3D) : Prop :=
  Euler.x (rotation o) = 0 /\ Euler.y (rotation o) = 0
  /\ Vector3.z (scale o) = 1.

(** *** Traces *)

(** Events after which one more frame has been rasterised: a tick renders
    once, and a resize renders once through [createBackground]. *)
Definition rendersOnce (e : Event) : bool :=
  match e with
  | Frame _ | Resize _ => true
  | _ => false
  end.

Definition countRenders (es : list Event) : nat :=
  length (List.filter rendersOnce es).

Definition isFrame (e : Event) : bool :=
  match e with Frame _ => true | _ => false end.

Definition isResize (e : Event) : bool :=
  match e with Resize _ => true | _ => false end.

(** The layout scalars agree with the window the host currently shows,
    and the page background, once painted, is as high as that window. *)
Definition layoutConsistent (g : Globals) : Prop :=
  windowHalfX g = innerWidth (window g) / 2
  /\ windowHalfY g = innerHeight (window g) / 2
  /\ aspect (camera g) = innerWidth (window g) / innerHeight (window g)
  /\ size (renderer g) = (innerWidth (window g), innerHeight (window g))
  /\ (background g = None
      \/ background g
         = Some {| width := 32; height := innerHeight (window g) |}).

(** A pointer position that lies inside the window [w]. *)
Definition insideWindow (w : Window) (px py : Q) : Prop :=
  0 <= px /\ px <= innerWidth w /\ 0 <= py /\ py <= innerHeight w.

(** Events of a session in a window that keeps its size [w]: pointer
    positions inside the window, no resize. *)
Definition eventInside (w : Window) (e : Event) : Prop :=
  match e with
  | MouseMove event => insideWindow w (clientX event) (clientY event)
  | TouchMove event =>
      Forall (fun t => insideWindow w (pageX t) (pageY t)) (touches event)
  | Resize _ => False
  | Frame _ => True
  end.

(** *** Geometry *)


Section World.

(** [Math.cos] and [Math.sin] of the host. *)
Variables Math_cos Math_sin : Q -> Q.

(** Where a vertex of a mesh ends up in the scene: the mesh is a direct
    child of the scene, so its world matrix is its local matrix, composed
    from its position, rotation and scale. *)
Definition Mesh_worldVertex (m : Mesh) (v : Vector3.t) : Vector3.t :=
  Vector3_applyMatrix4
    (matrix (updateMatrix Math_cos Math_sin (mesh_base m))) v.

End World.

(** An example window, 1280 x 720. *)
Definition exampleWindow : Window :=
  {| innerWidth := 1280; innerHeight := 720 |}.

(** The texture both variants load. *)
Definition exampleTexture : Texture :=
  {| url := "https://mrdoob.com/lab/javascript/webgl/clouds/cloud10.png" |}.

(** A fragment and a set of uniforms as [createClouds] installs them,
    over a sampler that is a constant colour. *)
Definition exampleUniforms : ShaderUniforms Vec4.t :=
  {| u_map := Vec4.mk 0.5 0.5 0.5 1;
     u_fogColor := Vec3.mk 0.25 0.5 0.75;
     u_fogNear := 100; u_fogFar := 2000;
     u_shaderPower := 15; u_cloudOpacity := 0.6 |}.

(** * Properties *)

(** ** Numbers *)

Lemma trunc_nonneg (q : Q) : 0 <= q -> Number.trunc q = Qfloor q.
Proof.
  destruct q as [n d]. unfold Qle, Number.trunc, Qfloor. simpl.
  intros H. apply Z.quot_div_nonneg; lia.
Qed.

Lemma Qfloor_unique (q : Q) (k : Z) :
  inject_Z k <= q -> q < inject_Z k + 1 -> Qfloor q = k.
Proof.
  intros Hlo Hhi.
  assert (H1 : (k <= Qfloor q)%Z).
  { rewrite <- (Qfloor_Z k). now apply Qfloor_resp_le. }
  assert (H2 : (Qfloor q < k + 1)%Z).
  { rewrite Zlt_Qlt. rewrite inject_Z_plus.
    apply Qle_lt_trans with q; [apply Qfloor_le | exact Hhi]. }
  lia.
Qed.


(** The remainder by a positive modulus of a non-negative number is the
    usual residue. *)
Lemma rem_range (a b : Q) : 0 <= a -> 0 < b ->
  0 <= Number.rem a b /\ Number.rem a b < b.
Proof.
  intros Ha Hb. unfold Number.rem.
  assert (Hq : 0 <= a / b).
  { apply Qle_shift_div_l; [exact Hb | lra]. }
  rewrite (trunc_nonneg _ Hq).
  pose proof (Qfloor_le (a / b)) as Hlo.
  pose proof (Qlt_floor (a / b)) as Hhi.
  rewrite inject_Z_plus in Hhi. change (inject_Z 1) with 1 in Hhi.
  assert (Ea : a == (a / b) * b) by (field; lra).
  set (k := inject_Z (Qfloor (a / b))) in *.
  set (q := a / b) in *.
  split; nra.
Qed.


Lemma trunc_comp (p q : Q) : p == q -> Number.trunc p = Number.trunc q.
Proof.
  intros E. destruct (Qlt_le_dec p 0) as [Hneg | Hpos].
  - assert (Hp : 0 <= - p) by lra. assert (Hq : 0 <= - q) by lra.
    assert (T : forall r : Q, Number.trunc r = (- Number.trunc (- r))%Z).
    { intros [n d]. unfold Number.trunc. simpl.
      rewrite Z.quot_opp_l by lia. lia. }
    rewrite (T p), (T q), (trunc_nonneg _ Hp), (trunc_nonneg _ Hq).
    f_equal. apply Qfloor_comp. lra.
  - assert (Hq : 0 <= q) by lra.
    rewrite (trunc_nonneg _ Hpos), (trunc_nonneg _ Hq).
    now apply Qfloor_comp.
Qed.

Lemma rem_comp (a a' b : Q) : a == a' -> Number.rem a b == Number.rem a' b.
Proof.
  intros E. unfold Number.rem.
  assert (E' : a / b == a' / b) by (rewrite E; reflexivity).
  rewrite (trunc_comp _ _ E'), E. reflexivity.
Qed.

(** The remainder on a few numbers: sign of the dividend, exact zero at
    multiples. *)
Example rem_9000 : Number.rem 9000 8000 == 1000.
Proof. reflexivity. Qed.

Example rem_16000 : Number.rem 16000 8000 == 0.
Proof. reflexivity. Qed.

Example rem_fraction : Number.rem (7 * 0.03) 8000 == 0.21.
Proof. reflexivity. Qed.

Example rem_negative : Number.rem (-9000) 8000 == -1000.
Proof. reflexivity. Qed.

(** ** Animation driver *)

Example cameraDepth_start : cameraDepth 0 == 8000.
Proof. reflexivity. Qed.

Example cameraDepth_100s : cameraDepth 100000 == 5000.
Proof. reflexivity. Qed.

Example cameraDepth_wrapped : cameraDepth 300000 == 7000.
Proof. reflexivity. Qed.

Example first_frame :
  camX (animate 1016 examplePointed) == 0.25
  /\ camY (animate 1016 examplePointed) == 0.03
  /\ camZ (animate 1016 examplePointed) == 7999.52.
Proof. repeat split. Qed.

Lemma animate_camZ (now : Q) (g : Globals) :
  camZ (animate now g) = cameraDepth (now - startTime g).
Proof. reflexivity. Qed.

Lemma animate_mouse (now : Q) (g : Globals) :
  mouseX (animate now g) = mouseX g /\ mouseY (animate now g) = mouseY g.
Proof. split; reflexivity. Qed.

Lemma cameraDepth_comp (t t' : Q) : t == t' -> cameraDepth t == cameraDepth t'.
Proof.
  intros E. unfold cameraDepth.
  rewrite (rem_comp (t * 0.03) (t' * 0.03) 8000) by (rewrite E; reflexivity).
  reflexivity.
Qed.


(** With the clock set back past [startTime] the remainder follows the
    sign of the elapsed time and the depth no longer repeats. *)
Lemma cameraDepth_negative_elapsed :
  ~ cameraDepth (-1 + 8000 / 0.03) == cameraDepth (-1).
Proof. vm_compute. discriminate. Qed.

Lemma rem_floor (a b : Q) : 0 <= a -> 0 < b ->
  Number.rem a b == a - b * inject_Z (Qfloor (a / b)).
Proof.
  intros Ha Hb. unfold Number.rem.
  rewrite trunc_nonneg; [reflexivity |].
  apply Qle_shift_div_l; [exact Hb | lra].
Qed.



Lemma cameraDepth_range (t : Q) :
  0 <= t -> 0 < cameraDepth t /\ cameraDepth t <= 8000.
Proof.
  intros H. unfold cameraDepth.
  destruct (rem_range (t * 0.03) 8000) as [Hlo Hhi]; [nra | lra |].
  split; lra.
Qed.

(** C10: the camera is created at depth 6000, and whatever the state
    before a tick (pointer target, camera position, window), a tick at a
    clock reading not before [startTime] leaves the camera depth in
    (0, 8000]. *)
Theorem camera_depth_range (g : Globals) (now : Q) (w : Window) (t0 : Q) :
  startTime g <= now ->
  camZ (start w t0) = 6000
  /\ 0 < camZ (animate now g) /\ camZ (animate now g) <= 8000.
Proof.
  intros H. split; [reflexivity |].
  rewrite animate_camZ. apply cameraDepth_range. lra.
Qed.

Lemma camera_depth_range_witness :
  startTime exampleGlobals <= 1000
  /\ 0 < camZ (animate 1000 exampleGlobals)
  /\ camZ (animate 1000 exampleGlobals) <= 8000.
Proof.
  assert (H : startTime exampleGlobals <= 1000)
    by (vm_compute; discriminate).
  split; [exact H |].
  exact (proj2 (camera_depth_range exampleGlobals 1000
                  (window exampleGlobals) 1000 H)).
Defined.

(** The camera is created at depth 6000, and only [animate] writes the
    depth afterwards. *)
Lemma start_camZ (w : Window) (now : Q) : camZ (start w now) = 6000.
Proof. reflexivity. Qed.

Lemma dispatch_camZ (e : Event) (g : Globals) :
  (forall now, e <> Frame now) -> camZ (dispatch e g) = camZ g.
Proof.
  intros H. destruct e as [ev | ev | w | now]; simpl.
  - reflexivity.
  - unfold onDocumentTouchMove. destruct (touches ev) as [| t0 [| t1 l]];
      reflexivity.
  - reflexivity.
  - now destruct (H now).
Qed.

Lemma dispatch_startTime (e : Event) (g : Globals) :
  startTime (dispatch e g) = startTime g.
Proof.
  destruct e as [ev | ev | w | now]; simpl; try reflexivity.
  unfold onDocumentTouchMove. destruct (touches ev) as [| t0 [| t1 l]];
    reflexivity.
Qed.

(** Along any trace of events whose frames are not stamped before
    [startTime], the depth stays in (0, 8000] from start-up on. *)
Lemma run_camZ_range (es : list Event) (g : Globals) :
  Forall (fun e => forall now, e = Frame now -> startTime g <= now) es ->
  0 < camZ g /\ camZ g <= 8000 ->
  0 < camZ (run es g) /\ camZ (run es g) <= 8000.
Proof.
  unfold run. revert g. induction es as [| e es IH]; intros g Hes Hg.
  - exact Hg.
  - simpl. inversion Hes as [| ? ? He Hes']; subst. apply IH.
    + rewrite dispatch_startTime. exact Hes'.
    + destruct e as [ev | ev | w | now].
      * rewrite dispatch_camZ by discriminate. exact Hg.
      * rewrite dispatch_camZ by discriminate. exact Hg.
      * rewrite dispatch_camZ by discriminate. exact Hg.
      * simpl. rewrite animate_camZ. apply cameraDepth_range.
        specialize (He now eq_refl). lra.
Qed.

(** ** Easing *)

Lemma animate_camX (now : Q) (g : Globals) :
  camX (animate now g) = camX g + (mouseX g - camX g) * 0.005.
Proof. reflexivity. Qed.

Lemma animate_camY (now : Q) (g : Globals) :
  camY (animate now g) = camY g + (- mouseY g - camY g) * 0.005.
Proof. reflexivity. Qed.

Lemma ticks_mouse (nows : list Q) (g : Globals) :
  mouseX (ticks nows g) = mouseX g /\ mouseY (ticks nows g) = mouseY g.
Proof.
  revert g. induction nows as [| now rest IH]; intros g; simpl.
  - split; reflexivity.
  - destruct (IH (animate now g)) as [Hx Hy]. rewrite Hx, Hy.
    apply animate_mouse.
Qed.





(** ** Resize and input handlers *)

(** C8: a second run of the resize handler at the same window dimensions
    leaves the camera aspect ratio, both window-half scalars, the renderer
    size and the background canvas (32 wide, as high as the window) as the
    first run set them. *)
Theorem resize_idempotent (g : Globals) :
  let once := onWindowResize g in
  let twice := onWindowResize once in
  aspect (camera twice) = aspect (camera once)
  /\ windowHalfX twice = windowHalfX once
  /\ windowHalfY twice = windowHalfY once
  /\ size (renderer twice) = size (renderer once)
  /\ background twice = background once
  /\ background once
     = Some {| width := 32; height := innerHeight (window g) |}
  /\ aspect (camera once) = innerWidth (window g) / innerHeight (window g)
  /\ windowHalfX once = innerWidth (window g) / 2
  /\ windowHalfY once = innerHeight (window g) / 2.
Proof. cbv zeta. repeat split; reflexivity. Qed.

(** Each run of the handler still rasterises one more frame: idempotence
    is of the layout, not of the whole state. *)
Lemma resize_renders (g : Globals) :
  frames (renderer (onWindowResize g)) = S (frames (renderer g)).
Proof. reflexivity. Qed.

Lemma touch_not_single (event : TouchEvent) (g : Globals) :
  length (touches event) <> 1%nat -> onDocumentTouchMove event g = g.
Proof.
  unfold onDocumentTouchMove.
  destruct (touches event) as [| t0 [| t1 l]]; simpl; intros H;
    [reflexivity | now destruct H | reflexivity].
Qed.

(** C9: a touch-move whose touch list does not have exactly one entry
    changes nothing; with exactly one touch, as with a pointer move, both
    pointer-target scalars are overwritten with the offset of the event
    position from the window centre (scaled by 0.05 and 0.03), whatever
    they held before, so of two moves in a row only the last one shows. *)
Theorem touch_move_single_only (event : TouchEvent) (g : Globals) :
  (length (touches event) <> 1%nat ->
   onDocumentTouchMove event g = g
   /\ mouseX (onDocumentTouchMove event g) = mouseX g
   /\ mouseY (onDocumentTouchMove event g) = mouseY g)
  /\ (forall t0, touches event = [t0] ->
      mouseX (onDocumentTouchMove event g)
        = (pageX t0 - windowHalfX g) * 0.05
      /\ mouseY (onDocumentTouchMove event g)
        = (pageY t0 - windowHalfY g) * 0.03)
  /\ (forall mouse : MouseEvent,
      mouseX (onDocumentMouseMove mouse g)
        = (clientX mouse - windowHalfX g) * 0.05
      /\ mouseY (onDocumentMouseMove mouse g)
        = (clientY mouse - windowHalfY g) * 0.03)
  /\ (forall e1 e2 : Event,
      isPointerEvent e1 = true -> isPointerEvent e2 = true ->
      mouseX (run [e1; e2] g) = mouseX (run [e2] g)
      /\ mouseY (run [e1; e2] g) = mouseY (run [e2] g)).
Proof.
  split; [| split; [| split]].
  - intros H. rewrite (touch_not_single event g H). repeat split.
  - intros t0 H. unfold onDocumentTouchMove. rewrite H. split; reflexivity.
  - intros mouse. split; reflexivity.
  - intros e1 e2 H1 H2.
    destruct e1 as [m1 | [ts1] | w1 | n1]; try discriminate;
      destruct e2 as [m2 | [ts2] | w2 | n2]; try discriminate;
      unfold run; simpl in *; unfold onDocumentTouchMove; simpl;
      try (destruct ts1 as [| a1 [| b1 l1]]; try discriminate);
      try (destruct ts2 as [| a2 [| b2 l2]]; try discriminate);
      split; reflexivity.
Qed.

Lemma touch_move_single_only_witness :
  onDocumentTouchMove examplePinch exampleGlobals = exampleGlobals
  /\ mouseX (onDocumentTouchMove examplePinch exampleGlobals)
     = mouseX exampleGlobals
  /\ mouseY (onDocumentTouchMove examplePinch exampleGlobals)
     = mouseY exampleGlobals.
Proof.
  apply (proj1 (touch_move_single_only examplePinch exampleGlobals)).
  simpl. lia.
Defined.

(** ** Shader *)

(** C6: the fragment colour is the five stages in the stated order, sample,
    lighten by 10% toward white, alpha times depth to the exponent, fog
    blend by the smoothstep of view-space depth, alpha times the global
    opacity; channel by channel, the fog blend leaves alpha as it was. *)
Theorem fragment_shader_stages (sampler2D : Type)
    (texture2D : sampler2D -> Q * Q -> Vec4.t) (pow : Q -> Q -> Q)
    (u : ShaderUniforms sampler2D) (gl_FragCoord : FragCoord) (vUv : Q * Q) :
  let out := fragmentShader sampler2D texture2D pow u gl_FragCoord vUv in
  let tex := texture2D (u_map u) vUv in
  let f := Number.smoothstep (u_fogNear u) (u_fogFar u)
             (frag_z gl_FragCoord / frag_w gl_FragCoord) in
  Vec4.eq out (shader_stages sampler2D texture2D pow u gl_FragCoord vUv)
  /\ Vec4.r out
     == Number.mix (Number.mix (Vec4.r tex) 1 0.1) (Vec3.r (u_fogColor u)) f
  /\ Vec4.g out
     == Number.mix (Number.mix (Vec4.g tex) 1 0.1) (Vec3.g (u_fogColor u)) f
  /\ Vec4.b out
     == Number.mix (Number.mix (Vec4.b tex) 1 0.1) (Vec3.b (u_fogColor u)) f
  /\ Vec4.a out
     == Vec4.a tex * pow (frag_z gl_FragCoord) (u_shaderPower u)
        * u_cloudOpacity u.
Proof.
  cbv zeta. unfold Vec4.eq, shader_stages, fragmentShader, stage_opacity,
    stage_fog, stage_falloff, stage_lighten, stage_sample, Number.mix.
  simpl. unfold Number.mix. repeat split; ring.
Qed.

(** ** Cloud field *)

Lemma applyMatrix4_depth (m : Matrix4.t) (v : Vector3.t) :
  Matrix4.e2 m == 0 -> Matrix4.e6 m == 0 -> Matrix4.e10 m == 1 ->
  Matrix4.e3 m == 0 -> Matrix4.e7 m == 0 -> Matrix4.e11 m == 0 ->
  Matrix4.e15 m == 1 ->
  Vector3.z v == 0 ->
  Vector3.z (Vector3_applyMatrix4 m v) == Matrix4.e14 m.
Proof.
  intros H2 H6 H10 H3 H7 H11 H15 Hz. unfold Vector3_applyMatrix4. simpl.
  rewrite H2, H6, H10, H3, H7, H11, H15, Hz. field.
Qed.

Lemma compose_depth_row (p : Vector3.t) (q : Quaternion.t) (s : Vector3.t) :
  Quaternion.x q == 0 -> Quaternion.y q == 0 -> Vector3.z s == 1 ->
  let m := compose p q s in
  Matrix4.e2 m == 0 /\ Matrix4.e6 m == 0 /\ Matrix4.e10 m == 1
  /\ Matrix4.e3 m == 0 /\ Matrix4.e7 m == 0 /\ Matrix4.e11 m == 0
  /\ Matrix4.e15 m == 1 /\ Matrix4.e14 m == Vector3.z p.
Proof.
  intros Hx Hy Hs. simpl. rewrite Hx, Hy, Hs.
  repeat split; try reflexivity; ring.
Qed.

Lemma PlaneGeometry_flat (width height : Q) :
  quadAt 0 (PlaneGeometry width height).
Proof.
  repeat split. simpl. repeat constructor; reflexivity.
Qed.

Lemma mergeIndex_length (geometries : list BufferGeometry) (off : nat) :
  Forall (fun geo => length (index geo) = 6%nat) geometries ->
  length (mergeIndex off geometries) = (6 * length geometries)%nat.
Proof.
  intros H. revert off. induction H as [| geo rest Hgeo _ IH]; intros off.
  - reflexivity.
  - cbn [mergeIndex length]. rewrite length_app, length_map, Hgeo, IH. lia.
Qed.

Lemma concat_length_const {A : Type} (ls : list (list A)) (n : nat) :
  Forall (fun l => length l = n) ls ->
  length (concat ls) = (n * length ls)%nat.
Proof.
  induction 1 as [| l rest Hl _ IH].
  - simpl. lia.
  - cbn [concat length]. rewrite length_app, Hl, IH. lia.
Qed.

Lemma concat_lookup_const {A : Type} (ls : list (list A)) (n i j : nat)
    (l : list A) (v : A) :
  Forall (fun l => length l = n) ls ->
  ls !! i = Some l -> l !! j = Some v ->
  concat ls !! (n * i + j)%nat = Some v.
Proof.
  intros H. revert i. induction H as [| l0 rest Hl0 _ IH]; intros i Hi Hj.
  - discriminate.
  - destruct i as [| i]; simpl in Hi.
    + injection Hi as ->. cbn [concat].
      replace (n * 0 + j)%nat with j by lia.
      now apply lookup_app_l_Some.
    + cbn [concat]. rewrite lookup_app_r by (rewrite Hl0; lia).
      rewrite Hl0. replace (n * S i + j - n)%nat with (n * i + j)%nat by lia.
      now apply IH.
Qed.

Lemma lookup_map {A B : Type} (f : A -> B) (l : list A) (i : nat) (x : A) :
  l !! i = Some x -> List.map f l !! i = Some (f x).
Proof.
  revert i. induction l as [| y l IH]; intros [| i] H; try discriminate.
  - injection H as ->. reflexivity.
  - simpl in *. now apply IH.
Qed.

Lemma quads_lookup (n i : nat) (geos : list BufferGeometry)
    (geo : BufferGeometry) :
  Forall2 quadAt (seq 0 n) geos -> geos !! i = Some geo ->
  (i < n)%nat /\ quadAt i geo.
Proof.
  intros HQ Hi.
  destruct (Forall2_lookup_r _ _ _ _ _ HQ Hi) as (k & Hk & Hq).
  apply lookup_seq in Hk. destruct Hk as [-> Hlt]. now split.
Qed.

(** Two merged planes: the second one's indices are shifted by four. *)
Example merge_two_planes :
  option_map index
    (mergeGeometries [PlaneGeometry 64 64; PlaneGeometry 64 64])
  = Some [0; 2; 1; 2; 3; 1; 4; 6; 5; 6; 7; 5]%nat.
Proof. reflexivity. Qed.

(** Three rounds of the loop with the stuck generator and unit stand-ins
    for cosine and sine: the depths of the twelve vertices. *)
Example three_quads_depths :
  List.map (fun geo => List.map (fun v => Qred (Vector3.z v))
                         (attr_position geo))
    (snd (cloudLoop (fun _ => 1) (fun q => q) (PlaneGeometry 64 64)
            3 0 Object3D_new exampleRNG []))
  = [[0; 0; 0; 0]; [1; 1; 1; 1]; [2; 2; 2; 2]].
Proof. vm_compute. reflexivity. Qed.

Section CloudFieldProofs.

Variables Math_cos Math_sin : Q -> Q.

Lemma cloudBody_untouched (planeGeo : BufferGeometry) (i : nat)
    (planeObj : Object3D) (rng : RNG) :
  planeObjUntouched planeObj ->
  planeObjUntouched
    (fst (fst (cloudBody Math_cos Math_sin planeGeo i planeObj rng))).
Proof. intros (Hx & Hy & Hs). repeat split; simpl; assumption. Qed.

Lemma cloudBody_shape (planeGeo : BufferGeometry) (i : nat)
    (planeObj : Object3D) (rng : RNG) :
  quadShape planeGeo ->
  quadShape (snd (cloudBody Math_cos Math_sin planeGeo i planeObj rng)).
Proof.
  intros (Hp & Hu & Hi). unfold quadShape.
  cbn -[compose setFromEuler Vector3_applyMatrix4].
  rewrite length_map. repeat split; assumption.
Qed.

Lemma cloudLoop_app (planeGeo : BufferGeometry) (count i : nat)
    (planeObj : Object3D) (rng : RNG) (acc : list BufferGeometry) :
  cloudLoop Math_cos Math_sin planeGeo count i planeObj rng acc
  = let '(o, r, gen) :=
      cloudLoop Math_cos Math_sin planeGeo count i planeObj rng [] in
    (o, r, acc ++ gen).
Proof.
  revert i planeObj rng acc.
  induction count as [| count IH]; intros i planeObj rng acc.
  - simpl. now rewrite app_nil_r.
  - cbn [cloudLoop].
    destruct (cloudBody Math_cos Math_sin planeGeo i planeObj rng)
      as [[o1 r1] geo].
    rewrite (IH (S i) o1 r1 (acc ++ [geo])).
    rewrite (IH (S i) o1 r1 ([] ++ [geo])).
    destruct (cloudLoop Math_cos Math_sin planeGeo count (S i) o1 r1 [])
      as [[o2 r2] gen].
    now rewrite <- app_assoc.
Qed.

(** What the body establishes for each index, the loop establishes for
    the whole list, in order. *)
Lemma cloudLoop_Forall2 (P : nat -> BufferGeometry -> Prop)
    (planeGeo : BufferGeometry) :
  (forall i planeObj rng,
      planeObjUntouched planeObj ->
      P i (snd (cloudBody Math_cos Math_sin planeGeo i planeObj rng))) ->
  forall count i planeObj rng,
    planeObjUntouched planeObj ->
    Forall2 P (seq i count)
      (snd (cloudLoop Math_cos Math_sin planeGeo count i planeObj rng [])).
Proof.
  intros Hbody count.
  induction count as [| count IH]; intros i planeObj rng Ho.
  - constructor.
  - cbn [cloudLoop seq].
    pose proof (Hbody i planeObj rng Ho) as Hq.
    pose proof (cloudBody_untouched planeGeo i planeObj rng Ho) as Ho1.
    destruct (cloudBody Math_cos Math_sin planeGeo i planeObj rng)
      as [[o1 r1] geo].
    rewrite cloudLoop_app. specialize (IH (S i) o1 r1 Ho1).
    destruct (cloudLoop Math_cos Math_sin planeGeo count (S i) o1 r1 [])
      as [[o2 r2] gen].
    simpl in *. constructor; assumption.
Qed.

Lemma cloudGeometries_Forall2 (P : nat -> BufferGeometry -> Prop) :
  (forall i planeObj rng,
      planeObjUntouched planeObj ->
      P i (snd (cloudBody Math_cos Math_sin (PlaneGeometry 64 64)
                  i planeObj rng))) ->
  forall rng,
    Forall2 P (seq 0 cloudCount)
      (fst (cloudGeometries Math_cos Math_sin rng)).
Proof.
  intros Hbody rng. unfold cloudGeometries.
  pose proof (cloudLoop_Forall2 P (PlaneGeometry 64 64) Hbody cloudCount 0
                Object3D_new rng) as H.
  destruct (cloudLoop Math_cos Math_sin (PlaneGeometry 64 64) cloudCount 0
              Object3D_new rng []) as [[o r] gen].
  apply H. repeat split.
Qed.

Lemma cloudGeometries_shape (rng : RNG) :
  length (fst (cloudGeometries Math_cos Math_sin rng)) = cloudCount
  /\ Forall quadShape (fst (cloudGeometries Math_cos Math_sin rng)).
Proof.
  pose proof (cloudGeometries_Forall2 (fun _ => quadShape)) as H.
  specialize (H (fun i o r _ =>
                   cloudBody_shape _ i o r
                     (proj1 (PlaneGeometry_flat 64 64))) rng).
  split.
  - apply Forall2_length in H. rewrite length_seq in H.
    symmetry. exact H.
  - clear -H. induction H; constructor; assumption.
Qed.

Lemma mergeGeometries_quads (geos : list BufferGeometry) :
  geos <> [] -> Forall quadShape geos ->
  exists merged,
    mergeGeometries geos = Some merged
    /\ attr_position merged = concat (List.map attr_position geos)
    /\ length (attr_position merged) = (4 * length geos)%nat
    /\ length (attr_uv merged) = (4 * length geos)%nat
    /\ length (index merged) = (6 * length geos)%nat.
Proof.
  intros Hne Hq. destruct geos as [| geo rest]; [now destruct Hne |].
  eexists. split; [reflexivity |]. cbn [attr_position attr_uv index].
  split; [reflexivity |]. repeat split.
  - rewrite (concat_length_const _ 4), length_map; [reflexivity |].
    apply Forall_map. eapply Forall_impl; [| exact Hq].
    intros g Hg. apply Hg.
  - rewrite (concat_length_const _ 4), length_map; [reflexivity |].
    apply Forall_map. eapply Forall_impl; [| exact Hq].
    intros g Hg. apply Hg.
  - apply mergeIndex_length. eapply Forall_impl; [| exact Hq].
    intros g Hg. apply Hg.
Qed.

Lemma cloudCount_pos : (0 < cloudCount)%nat.
Proof. unfold cloudCount. lia. Qed.

(** [createClouds] cannot fail, and this is the state it leaves. *)
Lemma createClouds_spec (settings : Settings) (cloudTexture : Texture)
    (rng : RNG) (s : SceneState) :
  exists s' merged mat mesh meshA,
    createClouds Math_cos Math_sin settings cloudTexture rng s
    = Some (s', snd (cloudGeometries Math_cos Math_sin rng))
    /\ mergeGeometries (fst (cloudGeometries Math_cos Math_sin rng))
       = Some merged
    /\ var_cloudMesh s' = Some mesh
    /\ var_cloudMeshA s' = Some meshA
    /\ children (scene s') = children (scene s) ++ [mesh; meshA]
    /\ geometries (heap s') !! geometry mesh = Some merged
    /\ materials (heap s') !! material mesh = Some mat
    /\ mesh_base mesh = set_renderOrder 2 Object3D_new
    /\ meshA
       = {| mesh_base :=
              set_visible (enableSecondLayer settings)
                (set_renderOrder 1
                   (set_position (Vector3.mk 0 0 (-8000))
                      (mesh_base mesh)));
            geometry := geometry mesh;
            material := material mesh |}.
Proof.
  destruct (cloudGeometries_shape rng) as [Hlen Hshape].
  assert (Hne : fst (cloudGeometries Math_cos Math_sin rng) <> []).
  { intros E. rewrite E in Hlen. cbn [length] in Hlen.
    pose proof cloudCount_pos. lia. }
  destruct (mergeGeometries_quads _ Hne Hshape) as (merged & Hm & _).
  unfold createClouds, alloc_material, alloc_geometry.
  destruct (cloudGeometries Math_cos Math_sin rng) as [geos rng'].
  cbn [fst snd] in *. rewrite Hm.
  eexists _, merged, _, _, _.
  split; [reflexivity |]. split; [reflexivity |].
  cbn [var_cloudMesh var_cloudMeshA scene heap children geometries
       materials geometry material mesh_base Mesh_new set_mesh_base
       Mesh_clone].
  split; [reflexivity |]. split; [reflexivity |].
  split; [now rewrite <- app_assoc |].
  split; [apply lookup_insert_eq |].
  split; [apply lookup_insert_eq |].
  split; reflexivity.
Qed.

(** [Math.sin] of zero is zero. *)
Hypothesis Math_sin_0 : forall q : Q, q == 0 -> Math_sin q == 0.

Lemma cloudBody_quad (planeGeo : BufferGeometry) (i : nat)
    (planeObj : Object3D) (rng : RNG) :
  quadAt 0 planeGeo ->
  planeObjUntouched planeObj ->
  quadAt i (snd (cloudBody Math_cos Math_sin planeGeo i planeObj rng)).
Proof.
  intros (Hshape & Hz) (Hx & Hy & Hs). split.
  { now apply cloudBody_shape. }
  cbn -[compose setFromEuler Vector3_applyMatrix4].
  apply Forall_map. eapply Forall_impl; [| exact Hz].
  intros v Hv. simpl in Hv.
  set (q := setFromEuler Math_cos Math_sin _).
  assert (S1 : Math_sin (0 / 2) == 0) by (apply Math_sin_0; reflexivity).
  assert (Hqx : Quaternion.x q == 0).
  { unfold q, setFromEuler. cbn -[Qdiv]. rewrite Hx, Hy, S1. ring. }
  assert (Hqy : Quaternion.y q == 0).
  { unfold q, setFromEuler. cbn -[Qdiv]. rewrite Hx, Hy, S1. ring. }
  match goal with
  | |- Vector3.z (Vector3_applyMatrix4 (compose ?p q ?s) v) == _ =>
      destruct (compose_depth_row p q s Hqx Hqy)
        as (H2 & H6 & H10 & H3 & H7 & H11 & H15 & H14);
        [simpl; rewrite Hs; reflexivity |];
      rewrite (applyMatrix4_depth _ v H2 H6 H10 H3 H7 H11 H15 Hv), H14
  end.
  reflexivity.
Qed.

Lemma cloudGeometries_quads (rng : RNG) :
  Forall2 quadAt (seq 0 cloudCount)
    (fst (cloudGeometries Math_cos Math_sin rng)).
Proof.
  apply cloudGeometries_Forall2. intros i o r Ho.
  apply cloudBody_quad; [apply PlaneGeometry_flat | exact Ho].
Qed.

End CloudFieldProofs.

(** C1: the generation loop leaves 8000 quads; the four vertices of the
    quad of index i all have z = i, so depth grows strictly with the index,
    and the merge keeps them, in order, at positions 4i .. 4i+3. *)
Theorem quad_depth_is_index (Math_cos Math_sin : Q -> Q) (rng : RNG)
    (i : nat) :
  (forall q : Q, q == 0 -> Math_sin q == 0) ->
  (i < cloudCount)%nat ->
  let geometries := fst (cloudGeometries Math_cos Math_sin rng) in
  Z.of_nat (length geometries) = 8000%Z
  /\ (exists geo,
        geometries !! i = Some geo
        /\ length (attr_position geo) = 4%nat
        /\ Forall (fun v => Vector3.z v == inject_Z (Z.of_nat i))
                  (attr_position geo))
  /\ (forall j geo geo' v v',
        (i < j)%nat ->
        geometries !! i = Some geo -> geometries !! j = Some geo' ->
        In v (attr_position geo) -> In v' (attr_position geo') ->
        Vector3.z v < Vector3.z v')
  /\ (exists merged,
        mergeGeometries geometries = Some merged
        /\ forall k, (k < 4)%nat ->
           exists v, attr_position merged !! (4 * i + k)%nat = Some v
                     /\ Vector3.z v == inject_Z (Z.of_nat i)).
Proof.
  intros Hsin Hi. cbv zeta.
  pose proof (cloudGeometries_quads Math_cos Math_sin Hsin rng) as HQ.
  destruct (cloudGeometries_shape Math_cos Math_sin rng) as [Hlen Hshape].
  set (geometries := fst (cloudGeometries Math_cos Math_sin rng)) in *.
  clearbody geometries.
  assert (Hgeo : exists geo, geometries !! i = Some geo).
  { apply lookup_lt_is_Some. rewrite Hlen. exact Hi. }
  destruct Hgeo as [geo Hgeo].
  destruct (quads_lookup _ _ _ _ HQ Hgeo) as [_ [[Hp _] Hz]].
  split; [| split; [| split]].
  - rewrite Hlen. unfold cloudCount. lia.
  - exists geo. repeat split; assumption.
  - intros j g1 g2 v v' Hij H1 H2 Hv Hv'.
    destruct (quads_lookup _ _ _ _ HQ H1) as [_ [_ Hz1]].
    destruct (quads_lookup _ _ _ _ HQ H2) as [_ [_ Hz2]].
    rewrite List.Forall_forall in Hz1, Hz2.
    pose proof (Hz1 v Hv) as E1. pose proof (Hz2 v' Hv') as E2.
    assert (Hlt : inject_Z (Z.of_nat i) < inject_Z (Z.of_nat j))
      by (rewrite <- Zlt_Qlt; lia).
    clear -E1 E2 Hlt. lra.
  - assert (Hne : geometries <> []).
    { intros E. rewrite E in Hgeo. rewrite lookup_nil in Hgeo.
      inversion Hgeo. }
    destruct (mergeGeometries_quads geometries Hne Hshape)
      as (merged & Hm & Hpos & _).
    exists merged. split; [exact Hm |]. intros k Hk.
    assert (Hv : exists v, attr_position geo !! k = Some v).
    { apply lookup_lt_is_Some. rewrite Hp. exact Hk. }
    destruct Hv as [v Hv]. exists v. split.
    + rewrite Hpos.
      apply (concat_lookup_const _ 4 i k (attr_position geo) v).
      * apply Forall_map. eapply Forall_impl; [| exact Hshape].
        intros g Hg. apply Hg.
      * apply lookup_map. exact Hgeo.
      * exact Hv.
    + rewrite List.Forall_forall in Hz. apply Hz.
      apply list_elem_of_In. eapply list_elem_of_lookup_2. exact Hv.
Qed.

(** A generator stuck at 1/2, and stand-ins for the host's cosine and
    sine, at index 7. *)
Lemma quad_depth_is_index_witness :
  exists geo,
    fst (cloudGeometries (fun _ => 1) (fun q => q) exampleRNG) !! 7%nat
    = Some geo
    /\ length (attr_position geo) = 4%nat
    /\ Forall (fun v => Vector3.z v == inject_Z (Z.of_nat 7))
              (attr_position geo).
Proof.
  refine (proj1 (proj2 (quad_depth_is_index (fun _ => 1) (fun q => q)
                          exampleRNG 7 _ _))).
  - intros q Hq. exact Hq.
  - unfold cloudCount. lia.
Defined.


Lemma Math_PI_digits :
  3.141592653589793 < Math_PI /\ Math_PI < 3.141592653589794.
Proof. split; reflexivity. Qed.



Lemma getUniform_setUniform (m m' : Mesh) (name : string)
    (v : UniformValue) (h : Heap) (mat : ShaderMaterial) :
  material m' = material m ->
  materials h !! material m = Some mat ->
  getUniform m' name (setUniform m name v h) = Some v.
Proof.
  intros Hm Hmat. unfold getUniform, setUniform. rewrite Hm, Hmat.
  cbn [materials]. rewrite lookup_insert_eq. cbn [mbind option_bind uniforms].
  apply lookup_insert_eq.
Qed.

(** C5: whatever the draws, [createClouds] succeeds and the geometry both
    meshes point to is the merge of the 8000 quads: 4 x 8000 = 32000
    vertices (nothing is deduplicated) and 3 x 16000 indices, that is
    2 x 8000 = 16000 triangles. *)
Theorem merged_vertex_count (Math_cos Math_sin : Q -> Q)
    (settings : Settings) (cloudTexture : Texture) (rng : RNG)
    (s : SceneState) :
  exists s' rng' mesh meshA merged,
    createClouds Math_cos Math_sin settings cloudTexture rng s
    = Some (s', rng')
    /\ var_cloudMesh s' = Some mesh
    /\ var_cloudMeshA s' = Some meshA
    /\ getGeometry mesh (heap s') = Some merged
    /\ getGeometry meshA (heap s') = Some merged
    /\ mergeGeometries (fst (cloudGeometries Math_cos Math_sin rng))
       = Some merged
    /\ attr_position merged
       = concat (List.map attr_position
                   (fst (cloudGeometries Math_cos Math_sin rng)))
    /\ length (attr_position merged) = (4 * cloudCount)%nat
    /\ Z.of_nat (length (attr_position merged)) = 32000%Z
    /\ Z.of_nat (length (index merged)) = (3 * 16000)%Z.
Proof.
  destruct (createClouds_spec Math_cos Math_sin settings cloudTexture rng s)
    as (s' & merged & mat & mesh & meshA & Hc & Hm & Hv & HvA & _ & Hg & _
        & _ & HA).
  destruct (cloudGeometries_shape Math_cos Math_sin rng) as [Hlen Hshape].
  assert (Hne : fst (cloudGeometries Math_cos Math_sin rng) <> []).
  { intros E. rewrite E in Hlen. cbn [length] in Hlen.
    pose proof cloudCount_pos. lia. }
  destruct (mergeGeometries_quads _ Hne Hshape)
    as (merged' & Hm' & Hpos & Hlp & _ & Hli).
  rewrite Hm in Hm'. injection Hm' as <-.
  exists s', (snd (cloudGeometries Math_cos Math_sin rng)), mesh, meshA,
    merged.
  rewrite Hlen in Hlp, Hli.
  split; [exact Hc |]. split; [exact Hv |]. split; [exact HvA |].
  split; [exact Hg |].
  split; [unfold getGeometry; rewrite HA; exact Hg |].
  split; [exact Hm |]. split; [exact Hpos |]. split; [exact Hlp |].
  rewrite Hlp, Hli. unfold cloudCount. split; lia.
Qed.

(** C7: the second mesh holds the same geometry reference and the same
    material reference as the first, sits at z = -8000 behind it, has
    render order 1 against 2, and is visible exactly when
    [enableSecondLayer] is set; a uniform read through one mesh is the
    same read through the other on any heap, so a uniform written through
    either is read back through both. *)
Theorem second_layer_shares_objects (Math_cos Math_sin : Q -> Q)
    (settings : Settings) (cloudTexture : Texture) (rng : RNG)
    (s : SceneState) :
  exists s' rng' mesh meshA,
    createClouds Math_cos Math_sin settings cloudTexture rng s
    = Some (s', rng')
    /\ var_cloudMesh s' = Some mesh
    /\ var_cloudMeshA s' = Some meshA
    /\ children (scene s') = children (scene s) ++ [mesh; meshA]
    /\ geometry meshA = geometry mesh
    /\ material meshA = material mesh
    /\ is_Some (getGeometry mesh (heap s'))
    /\ is_Some (materials (heap s') !! material mesh)
    /\ Vector3.z (position (mesh_base mesh)) == 0
    /\ Vector3.z (position (mesh_base meshA)) == -8000
    /\ renderOrder (mesh_base mesh) == 2
    /\ renderOrder (mesh_base meshA) == 1
    /\ renderOrder (mesh_base meshA) < renderOrder (mesh_base mesh)
    /\ visible (mesh_base meshA) = enableSecondLayer settings
    /\ (forall h, getGeometry meshA h = getGeometry mesh h)
    /\ (forall h name, getUniform meshA name h = getUniform mesh name h)
    /\ (forall name v,
          getUniform mesh name (setUniform mesh name v (heap s')) = Some v
          /\ getUniform meshA name (setUniform mesh name v (heap s'))
             = Some v
          /\ getUniform mesh name (setUniform meshA name v (heap s'))
             = Some v
          /\ getUniform meshA name (setUniform meshA name v (heap s'))
             = Some v).
Proof.
  destruct (createClouds_spec Math_cos Math_sin settings cloudTexture rng s)
    as (s' & merged & mat & mesh & meshA & Hc & Hm & Hv & HvA & Hch & Hg
        & Hmat & Hbase & HA).
  exists s', (snd (cloudGeometries Math_cos Math_sin rng)), mesh, meshA.
  assert (EG : geometry meshA = geometry mesh) by (rewrite HA; reflexivity).
  assert (EM : material meshA = material mesh) by (rewrite HA; reflexivity).
  assert (EB : mesh_base meshA
               = set_visible (enableSecondLayer settings)
                   (set_renderOrder 1
                      (set_position (Vector3.mk 0 0 (-8000))
                         (mesh_base mesh))))
    by (rewrite HA; reflexivity).
  clear HA Hm.
  split; [exact Hc |]. split; [exact Hv |]. split; [exact HvA |].
  split; [exact Hch |]. split; [exact EG |]. split; [exact EM |].
  split; [unfold getGeometry; rewrite Hg; eexists; reflexivity |].
  split; [rewrite Hmat; eexists; reflexivity |].
  rewrite EB, Hbase. cbn [position renderOrder visible set_visible
                          set_renderOrder set_position Vector3.z].
  split; [reflexivity |]. split; [reflexivity |]. split; [reflexivity |].
  split; [reflexivity |]. split; [reflexivity |]. split; [reflexivity |].
  split; [intros h; unfold getGeometry; rewrite EG; reflexivity |].
  split; [intros h name; unfold getUniform; rewrite EM; reflexivity |].
  intros name v. repeat split.
  - now apply (getUniform_setUniform mesh mesh name v (heap s') mat).
  - now apply (getUniform_setUniform mesh meshA name v (heap s') mat).
  - apply (getUniform_setUniform meshA mesh name v (heap s') mat);
      [symmetry; exact EM | rewrite EM; exact Hmat].
  - apply (getUniform_setUniform meshA meshA name v (heap s') mat);
      [reflexivity | rewrite EM; exact Hmat].
Qed.

(** * Further properties of the script *)

(** ** The depth sawtooth *)

Lemma trunc_opp (q : Q) : Number.trunc (- q) = (- Number.trunc q)%Z.
Proof.
  destruct q as [n d]. unfold Number.trunc. simpl.
  rewrite Z.quot_opp_l by lia. reflexivity.
Qed.

Lemma rem_opp (a b : Q) : Number.rem (- a) b == - Number.rem a b.
Proof.
  unfold Number.rem.
  assert (E : - a / b == - (a / b)).
  { unfold Qdiv. ring. }
  rewrite (trunc_comp _ _ E), trunc_opp, inject_Z_opp. ring.
Qed.

Lemma rem_small (a b : Q) : 0 <= a -> a < b -> Number.rem a b == a.
Proof.
  intros Ha Hb. rewrite rem_floor by lra.
  assert (F : Qfloor (a / b) = 0%Z).
  { apply Qfloor_unique; change (inject_Z 0) with 0.
    - apply Qle_shift_div_l; lra.
    - apply Qlt_shift_div_r; lra. }
  rewrite F. change (inject_Z 0) with 0. ring.
Qed.




(** When the host clock reads less than [startTime] (it was set back), the
    remainder is negative or zero and the tick puts the camera at 8000 or
    beyond, short of 16000; within one period before the start it is
    exactly 0.03 per millisecond beyond 8000. *)
Theorem camera_depth_clock_set_back (g : Globals) (now : Q) :
  now < startTime g ->
  8000 <= camZ (animate now g)
  /\ camZ (animate now g) < 16000
  /\ (startTime g - now < 8000 / 0.03 ->
      camZ (animate now g) == 8000 + (startTime g - now) * 0.03).
Proof.
  intros H. rewrite animate_camZ. unfold cameraDepth.
  set (a := (startTime g - now) * 0.03).
  assert (Ha : 0 <= a) by (unfold a; nra).
  assert (E : Number.rem ((now - startTime g) * 0.03) 8000
              == - Number.rem a 8000).
  { rewrite <- rem_opp. apply rem_comp. unfold a. ring. }
  rewrite E. destruct (rem_range a 8000 Ha) as [Hlo Hhi]; [lra |].
  split; [lra |]. split; [lra |].
  intros Hp.
  assert (Ha2 : a < 8000).
  { assert (P : 8000 / 0.03 == 800000 # 3) by reflexivity.
    rewrite P in Hp. unfold a. lra. }
  rewrite rem_small by lra. unfold a. ring.
Qed.

Lemma camera_depth_clock_set_back_witness :
  8000 <= camZ (animate 900 exampleGlobals)
  /\ camZ (animate 900 exampleGlobals) < 16000
  /\ (startTime exampleGlobals - 900 < 8000 / 0.03 ->
      camZ (animate 900 exampleGlobals)
      == 8000 + (startTime exampleGlobals - 900) * 0.03).
Proof.
  apply (camera_depth_clock_set_back exampleGlobals 900).
  vm_compute. reflexivity.
Defined.

(** ** Easing *)


(** ** Event traces *)

Lemma run_cons (e : Event) (es : list Event) (g : Globals) :
  run (e :: es) g = run es (dispatch e g).
Proof. reflexivity. Qed.

Lemma dispatch_frames (e : Event) (g : Globals) :
  frames (renderer (dispatch e g))
  = (frames (renderer g) + (if rendersOnce e then 1 else 0))%nat.
Proof.
  destruct e as [ev | ev | w | now]; simpl.
  - lia.
  - unfold onDocumentTouchMove.
    destruct (touches ev) as [| t0 [| t1 l]]; simpl; lia.
  - lia.
  - lia.
Qed.

(** One frame is rasterised per tick and one per resize (the repaint of
    the background), and none by pointer events: over any trace the
    renderer's frame count grows by the number of ticks and resizes. *)
Theorem renders_per_event (es : list Event) (g : Globals) :
  frames (renderer (run es g))
  = (frames (renderer g) + countRenders es)%nat.
Proof.
  revert g. induction es as [| e es IH]; intros g.
  - unfold countRenders. simpl. lia.
  - rewrite run_cons, IH, dispatch_frames. unfold countRenders. simpl.
    destruct (rendersOnce e); simpl; lia.
Qed.

Lemma dispatch_layout (e : Event) (g : Globals) :
  layoutConsistent g -> layoutConsistent (dispatch e g).
Proof.
  intros (Hx & Hy & Ha & Hs & Hb).
  destruct e as [ev | ev | w | now].
  - repeat split; assumption.
  - simpl. unfold onDocumentTouchMove.
    destruct (touches ev) as [| t0 [| t1 l]]; repeat split; assumption.
  - repeat split. right. reflexivity.
  - repeat split; assumption.
Qed.

(** From start-up on, whatever events arrive, the window-half scalars,
    the camera aspect ratio and the renderer size are those of the window
    as the host last reported it, and the background, once painted, is as
    high as that window. *)
Theorem layout_follows_window (w : Window) (t0 : Q) (es : list Event) :
  layoutConsistent (run es (start w t0)).
Proof.
  assert (H0 : layoutConsistent (start w t0)).
  { repeat split. left. reflexivity. }
  revert H0. generalize (start w t0).
  induction es as [| e es IH]; intros g Hg.
  - exact Hg.
  - rewrite run_cons. apply IH. now apply dispatch_layout.
Qed.

Lemma run_preserves {A : Type} (f : Globals -> A) (ok : Event -> bool) :
  (forall e g, ok e = true -> f (dispatch e g) = f g) ->
  forall es g, forallb ok es = true -> f (run es g) = f g.
Proof.
  intros Hd es. induction es as [| e es IH]; intros g Hes.
  - reflexivity.
  - simpl in Hes. apply andb_prop in Hes. destruct Hes as [He Hes].
    rewrite run_cons, IH by exact Hes. now apply Hd.
Qed.

(** Each kind of event writes only its own part of the state.  Over any
    trace [startTime] is never written; without a pointer event the
    pointer target stays; without a tick the camera stays where it is;
    without a resize the window, the window-half scalars, the aspect
    ratio, the renderer size and the background stay.  In particular a
    resize does not rescale a pointer target computed against the old
    window centre. *)
Theorem events_write_their_own_state (es : list Event) (g : Globals) :
  startTime (run es g) = startTime g
  /\ (forallb (fun e => negb (isPointerEvent e)) es = true ->
      mouseX (run es g) = mouseX g /\ mouseY (run es g) = mouseY g)
  /\ (forallb (fun e => negb (isFrame e)) es = true ->
      position (camera_base (camera (run es g)))
      = position (camera_base (camera g)))
  /\ (forallb (fun e => negb (isResize e)) es = true ->
      window (run es g) = window g
      /\ windowHalfX (run es g) = windowHalfX g
      /\ windowHalfY (run es g) = windowHalfY g
      /\ aspect (camera (run es g)) = aspect (camera g)
      /\ size (renderer (run es g)) = size (renderer g)
      /\ background (run es g) = background g).
Proof.
  assert (Touch : forall ev g0,
             negb (isPointerEvent (TouchMove ev)) = true ->
             onDocumentTouchMove ev g0 = g0).
  { intros ev g0 He. simpl in He. unfold onDocumentTouchMove.
    destruct (touches ev) as [| t0 [| t1 l]]; try discriminate;
      reflexivity. }
  assert (Touch' : forall ev g0 A (f : Globals -> A),
             (forall mx my g1, f (set_mouse mx my g1) = f g1) ->
             f (onDocumentTouchMove ev g0) = f g0).
  { intros ev g0 A f Hf. unfold onDocumentTouchMove.
    destruct (touches ev) as [| t0 [| t1 l]]; try reflexivity. apply Hf. }
  split; [| split; [| split]].
  - apply (run_preserves startTime (fun _ => true)).
    + intros e g0 _. apply dispatch_startTime.
    + clear. induction es; [reflexivity | assumption].
  - intros H. split.
    + apply (run_preserves mouseX (fun e => negb (isPointerEvent e)));
        [| exact H].
      intros e g0 He. destruct e as [ev | ev | w | now];
        try discriminate; try reflexivity.
      simpl. now rewrite Touch.
    + apply (run_preserves mouseY (fun e => negb (isPointerEvent e)));
        [| exact H].
      intros e g0 He. destruct e as [ev | ev | w | now];
        try discriminate; try reflexivity.
      simpl. now rewrite Touch.
  - apply (run_preserves (fun g0 => position (camera_base (camera g0)))).
    intros e g0 He.
    destruct e as [ev | ev | w | now]; try discriminate; try reflexivity.
    simpl.
    now apply (Touch' ev g0 _
                 (fun g1 => position (camera_base (camera g1)))).
  - intros H.
    assert (P : forall A (f : Globals -> A),
               (forall mx my g1, f (set_mouse mx my g1) = f g1) ->
               (forall now g1, f (animate now g1) = f g1) ->
               f (run es g) = f g).
    { intros A f Hm Ha.
      apply (run_preserves f (fun e => negb (isResize e))); [| exact H].
      intros e g0 He. destruct e as [ev | ev | w | now]; try discriminate.
      - apply Hm.
      - simpl. now apply (Touch' ev g0 _ f).
      - apply Ha. }
    split; [apply (P _ window); reflexivity |].
    split; [apply (P _ windowHalfX); reflexivity |].
    split; [apply (P _ windowHalfY); reflexivity |].
    split; [apply (P _ (fun g0 => aspect (camera g0))); reflexivity |].
    split; [apply (P _ (fun g0 => size (renderer g0))); reflexivity |].
    apply (P _ background); reflexivity.
Qed.

Lemma dispatch_lateral (w : Window) (e : Event) (g : Globals) :
  eventInside w e ->
  let bx := innerWidth w * 0.025 in
  let bz := innerHeight w * 0.015 in
  (window g = w
   /\ windowHalfX g = innerWidth w / 2 /\ windowHalfY g = innerHeight w / 2
   /\ (- bx <= mouseX g /\ mouseX g <= bx)
   /\ (- bz <= mouseY g /\ mouseY g <= bz)
   /\ (- bx <= camX g /\ camX g <= bx)
   /\ (- bz <= camY g /\ camY g <= bz)) ->
  (window (dispatch e g) = w
   /\ windowHalfX (dispatch e g) = innerWidth w / 2
   /\ windowHalfY (dispatch e g) = innerHeight w / 2
   /\ (- bx <= mouseX (dispatch e g) /\ mouseX (dispatch e g) <= bx)
   /\ (- bz <= mouseY (dispatch e g) /\ mouseY (dispatch e g) <= bz)
   /\ (- bx <= camX (dispatch e g) /\ camX (dispatch e g) <= bx)
   /\ (- bz <= camY (dispatch e g) /\ camY (dispatch e g) <= bz)).
Proof.
  intros He bx bz (Hw & Hx & Hy & Hmx & Hmy & Hcx & Hcy).
  assert (Move : forall px py,
             insideWindow w px py ->
             (- bx <= (px - windowHalfX g) * 0.05
              /\ (px - windowHalfX g) * 0.05 <= bx)
             /\ (- bz <= (py - windowHalfY g) * 0.03
                 /\ (py - windowHalfY g) * 0.03 <= bz)).
  { intros px py (H1 & H2 & H3 & H4). rewrite Hx, Hy. unfold bx, bz.
    assert (Ex : innerWidth w / 2 == innerWidth w * 0.5) by field.
    assert (Ey : innerHeight w / 2 == innerHeight w * 0.5) by field.
    rewrite Ex, Ey. repeat split; lra. }
  destruct e as [ev | ev | w' | now]; simpl in He.
  - destruct (Move _ _ He) as [Mx My].
    repeat split; try assumption; try apply Mx; try apply My;
      try apply Hcx; try apply Hcy.
  - simpl. unfold onDocumentTouchMove.
    destruct (touches ev) as [| t0 [| t1 l]].
    + repeat split; try assumption; try apply Hmx; try apply Hmy;
        try apply Hcx; try apply Hcy.
    + inversion He as [| ? ? Ht _]; subst.
      destruct (Move _ _ Ht) as [Mx My].
      repeat split; try assumption; try apply Mx; try apply My;
        try apply Hcx; try apply Hcy.
    + repeat split; try assumption; try apply Hmx; try apply Hmy;
        try apply Hcx; try apply Hcy.
  - destruct He.
  - change (dispatch (Frame now) g) with (animate now g).
    rewrite animate_camX, animate_camY.
    destruct (animate_mouse now g) as [Ex Ey]. rewrite Ex, Ey.
    repeat split; try assumption; try apply Hmx; try apply Hmy; lra.
Qed.

(** In a window that keeps its size, with every pointer position inside
    the window, the pointer target and the camera stay within 2.5% of the
    window width to either side in x and within 1.5% of the window height
    in y, from start-up on and through any interleaving of pointer events
    and ticks. *)
Theorem camera_lateral_bound (w : Window) (t0 : Q) (es : list Event) :
  0 <= innerWidth w -> 0 <= innerHeight w ->
  Forall (eventInside w) es ->
  let g := run es (start w t0) in
  let bx := innerWidth w * 0.025 in
  let bz := innerHeight w * 0.015 in
  (- bx <= mouseX g /\ mouseX g <= bx)
  /\ (- bz <= mouseY g /\ mouseY g <= bz)
  /\ (- bx <= camX g /\ camX g <= bx)
  /\ (- bz <= camY g /\ camY g <= bz).
Proof.
  intros Hw Hh Hes. cbv zeta.
  enough (H : forall g,
             (window g = w
              /\ windowHalfX g = innerWidth w / 2
              /\ windowHalfY g = innerHeight w / 2
              /\ (- (innerWidth w * 0.025) <= mouseX g
                  /\ mouseX g <= innerWidth w * 0.025)
              /\ (- (innerHeight w * 0.015) <= mouseY g
                  /\ mouseY g <= innerHeight w * 0.015)
              /\ (- (innerWidth w * 0.025) <= camX g
                  /\ camX g <= innerWidth w * 0.025)
              /\ (- (innerHeight w * 0.015) <= camY g
                  /\ camY g <= innerHeight w * 0.015)) ->
             (window (run es g) = w
              /\ windowHalfX (run es g) = innerWidth w / 2
              /\ windowHalfY (run es g) = innerHeight w / 2
              /\ (- (innerWidth w * 0.025) <= mouseX (run es g)
                  /\ mouseX (run es g) <= innerWidth w * 0.025)
              /\ (- (innerHeight w * 0.015) <= mouseY (run es g)
                  /\ mouseY (run es g) <= innerHeight w * 0.015)
              /\ (- (innerWidth w * 0.025) <= camX (run es g)
                  /\ camX (run es g) <= innerWidth w * 0.025)
              /\ (- (innerHeight w * 0.015) <= camY (run es g)
                  /\ camY (run es g) <= innerHeight w * 0.015))).
  { apply H. unfold camX, camY. simpl. repeat split; lra. }
  induction Hes as [| e es He Hes IH]; intros g Hg.
  - exact Hg.
  - rewrite run_cons. apply IH.
    apply (dispatch_lateral w e g He Hg).
Qed.

Lemma camera_lateral_bound_witness :
  - (1280 * 0.025)
  <= camX (run [MouseMove {| clientX := 1000; clientY := 100 |};
                Frame 1016;
                TouchMove {| touches := [{| pageX := 10; pageY := 700 |}] |};
                Frame 1032]
             (start exampleWindow 1000))
  /\ camX (run [MouseMove {| clientX := 1000; clientY := 100 |};
                Frame 1016;
                TouchMove {| touches := [{| pageX := 10; pageY := 700 |}] |};
                Frame 1032]
             (start exampleWindow 1000))
     <= 1280 * 0.025.
Proof.
  refine (proj1 (proj2 (proj2 (camera_lateral_bound exampleWindow 1000
                                 _ _ _ _)))).
  - simpl. lra.
  - simpl. lra.
  - repeat constructor; simpl; lra.
Defined.

(** ** Fog shader *)


Lemma clamp_below (v : Q) : v <= 0 -> Number.clamp v 0 1 == 0.
Proof.
  intros H. unfold Number.clamp.
  destruct (Q.max_spec v 0) as [[H1 E1] | [H1 E1]];
    destruct (Q.min_spec (Qmax v 0) 1) as [[H2 E2] | [H2 E2]];
    rewrite E2 in *; try rewrite E1 in *; lra.
Qed.

Lemma clamp_above (v : Q) : 1 <= v -> Number.clamp v 0 1 == 1.
Proof.
  intros H. unfold Number.clamp.
  destruct (Q.max_spec v 0) as [[H1 E1] | [H1 E1]];
    destruct (Q.min_spec (Qmax v 0) 1) as [[H2 E2] | [H2 E2]];
    rewrite E2 in *; try rewrite E1 in *; lra.
Qed.


Lemma smoothstep_below (edge0 edge1 v : Q) :
  edge0 < edge1 -> v <= edge0 -> Number.smoothstep edge0 edge1 v == 0.
Proof.
  intros He Hv. unfold Number.smoothstep.
  rewrite clamp_below; [ring |].
  apply Qle_shift_div_r; lra.
Qed.

Lemma smoothstep_above (edge0 edge1 v : Q) :
  edge0 < edge1 -> edge1 <= v -> Number.smoothstep edge0 edge1 v == 1.
Proof.
  intros He Hv. unfold Number.smoothstep.
  rewrite clamp_above; [ring |].
  apply Qle_shift_div_l; lra.
Qed.

Lemma fragmentShader_channels (sampler2D : Type)
    (texture2D : sampler2D -> Q * Q -> Vec4.t) (pow : Q -> Q -> Q)
    (u : ShaderUniforms sampler2D) (gl_FragCoord : FragCoord) (vUv : Q * Q) :
  let out := fragmentShader sampler2D texture2D pow u gl_FragCoord vUv in
  let tex := texture2D (u_map u) vUv in
  let f := Number.smoothstep (u_fogNear u) (u_fogFar u)
             (frag_z gl_FragCoord / frag_w gl_FragCoord) in
  Vec4.r out == (Vec4.r tex * 0.9 + 0.1) * (1 - f) + Vec3.r (u_fogColor u) * f
  /\ Vec4.g out
     == (Vec4.g tex * 0.9 + 0.1) * (1 - f) + Vec3.g (u_fogColor u) * f
  /\ Vec4.b out
     == (Vec4.b tex * 0.9 + 0.1) * (1 - f) + Vec3.b (u_fogColor u) * f
  /\ Vec4.a out
     == Vec4.a tex * pow (frag_z gl_FragCoord) (u_shaderPower u)
        * u_cloudOpacity u.
Proof.
  cbv zeta. unfold fragmentShader, Number.mix. simpl. unfold Number.mix.
  repeat split; ring.
Qed.

(** With the near threshold below the far one: a fragment whose
    view-space depth is at or before the near threshold gets no fog (its
    colour is the lightened texture colour), and one at or beyond the far
    threshold gets the fog colour alone, whatever the texture; its alpha
    is the same in both cases. *)
Theorem fog_blend_limits (sampler2D : Type)
    (texture2D : sampler2D -> Q * Q -> Vec4.t) (pow : Q -> Q -> Q)
    (u : ShaderUniforms sampler2D) (gl_FragCoord : FragCoord) (vUv : Q * Q) :
  u_fogNear u < u_fogFar u ->
  let out := fragmentShader sampler2D texture2D pow u gl_FragCoord vUv in
  let tex := texture2D (u_map u) vUv in
  let depth := frag_z gl_FragCoord / frag_w gl_FragCoord in
  (depth <= u_fogNear u ->
   Vec4.r out == Vec4.r tex * 0.9 + 0.1
   /\ Vec4.g out == Vec4.g tex * 0.9 + 0.1
   /\ Vec4.b out == Vec4.b tex * 0.9 + 0.1)
  /\ (u_fogFar u <= depth ->
      Vec4.r out == Vec3.r (u_fogColor u)
      /\ Vec4.g out == Vec3.g (u_fogColor u)
      /\ Vec4.b out == Vec3.b (u_fogColor u))
  /\ Vec4.a out
     == Vec4.a tex * pow (frag_z gl_FragCoord) (u_shaderPower u)
        * u_cloudOpacity u.
Proof.
  intros Hnf. cbv zeta.
  destruct (fragmentShader_channels sampler2D texture2D pow u gl_FragCoord
              vUv) as (Hr & Hg & Hb & Ha).
  cbv zeta in Hr, Hg, Hb, Ha.
  split; [| split; [| exact Ha]].
  - intros Hd. rewrite Hr, Hg, Hb.
    rewrite (smoothstep_below _ _ _ Hnf Hd). repeat split; ring.
  - intros Hd. rewrite Hr, Hg, Hb.
    rewrite (smoothstep_above _ _ _ Hnf Hd). repeat split; ring.
Qed.

Lemma fog_blend_limits_witness :
  Vec4.r (fragmentShader Vec4.t (fun c _ => c) (fun _ _ => 1)
            exampleUniforms {| frag_z := 0.5; frag_w := 0.0002 |} (0.5, 0.5))
  == Vec3.r (u_fogColor exampleUniforms).
Proof.
  refine (proj1 (proj1 (proj2 (fog_blend_limits Vec4.t (fun c _ => c)
                                 (fun _ _ => 1) exampleUniforms
                                 {| frag_z := 0.5; frag_w := 0.0002 |}
                                 (0.5, 0.5) _)) _)).
  - vm_compute. reflexivity.
  - vm_compute. discriminate.
Defined.



(** ** Cloud field: the draws and where the quads land *)



Section CloudDraws.

Variables Math_cos Math_sin : Q -> Q.




End CloudDraws.







(** ** Cloud field: the merged buffers *)

Lemma mergeIndex_lookup (idx : list nat) (n : nat)
    (geometries : list BufferGeometry) :
  Forall (fun geo => index geo = idx /\ length (attr_position geo) = n)
         geometries ->
  forall off i k j,
    (i < length geometries)%nat -> idx !! k = Some j ->
    mergeIndex off geometries !! (length idx * i + k)%nat
    = Some (j + off + n * i)%nat.
Proof.
  induction 1 as [| geo rest [Hidx Hn] _ IH]; intros off i k j Hi Hk.
  - simpl in Hi. lia.
  - cbn [mergeIndex]. rewrite Hidx, Hn. destruct i as [| i].
    + replace (length idx * 0 + k)%nat with k by lia.
      apply lookup_app_l_Some.
      replace (j + off + n * 0)%nat with (j + off)%nat by lia.
      now apply (lookup_map (fun j0 => (j0 + off)%nat)).
    + rewrite lookup_app_r by (rewrite length_map; lia).
      rewrite length_map.
      replace (length idx * S i + k - length idx)%nat
        with (length idx * i + k)%nat by lia.
      rewrite (IH (off + n)%nat i k j) by (simpl in Hi; lia || exact Hk).
      f_equal. lia.
Qed.

Lemma mergeIndex_bounded (idx : list nat) (n : nat)
    (geometries : list BufferGeometry) :
  Forall (fun j => (j < n)%nat) idx ->
  Forall (fun geo => index geo = idx /\ length (attr_position geo) = n)
         geometries ->
  forall off,
    Forall (fun j => (j < off + n * length geometries)%nat)
           (mergeIndex off geometries).
Proof.
  intros Hidx. induction 1 as [| geo rest [Hi Hn] _ IH]; intros off.
  - constructor.
  - cbn [mergeIndex length]. rewrite Hi, Hn. apply Forall_app. split.
    + apply Forall_map. eapply Forall_impl; [| exact Hidx].
      intros j Hj. simpl in *. lia.
    + eapply Forall_impl; [| apply (IH (off + n)%nat)].
      intros j Hj. simpl in *. lia.
Qed.

Lemma concat_lookup_same {A : Type} (ls : list (list A)) (l : list A)
    (i k : nat) :
  Forall (fun l0 => l0 = l) ls -> (i < length ls)%nat ->
  (k < length l)%nat ->
  concat ls !! (length l * i + k)%nat = l !! k.
Proof.
  intros H. revert i. induction H as [| l0 rest -> _ IH]; intros i Hi Hk.
  - simpl in Hi. lia.
  - cbn [concat]. destruct i as [| i].
    + replace (length l * 0 + k)%nat with k by lia.
      now apply lookup_app_l.
    + rewrite lookup_app_r by lia.
      replace (length l * S i + k - length l)%nat
        with (length l * i + k)%nat by lia.
      apply IH; [simpl in Hi; lia | exact Hk].
Qed.

Section CloudBuffers.

Variables Math_cos Math_sin : Q -> Q.

(** Baking the transform into a clone of the plane changes its vertex
    positions only. *)
Lemma cloudGeometries_copies (rng : RNG) :
  Forall (fun geo =>
            index geo = [0; 2; 1; 2; 3; 1]%nat
            /\ attr_uv geo = [(0, 1); (1, 1); (0, 0); (1, 0)]
            /\ length (attr_position geo) = 4%nat)
         (fst (cloudGeometries Math_cos Math_sin rng)).
Proof.
  pose proof (cloudGeometries_Forall2 Math_cos Math_sin
                (fun _ geo =>
                   index geo = [0; 2; 1; 2; 3; 1]%nat
                   /\ attr_uv geo = [(0, 1); (1, 1); (0, 0); (1, 0)]
                   /\ length (attr_position geo) = 4%nat)) as H.
  assert (Hbody : forall i planeObj r,
             planeObjUntouched planeObj ->
             index (snd (cloudBody Math_cos Math_sin (PlaneGeometry 64 64) i
                           planeObj r))
             = [0; 2; 1; 2; 3; 1]%nat
             /\ attr_uv (snd (cloudBody Math_cos Math_sin
                                (PlaneGeometry 64 64) i planeObj r))
                = [(0, 1); (1, 1); (0, 0); (1, 0)]
             /\ length (attr_position
                          (snd (cloudBody Math_cos Math_sin
                                  (PlaneGeometry 64 64) i planeObj r)))
                = 4%nat).
  { intros i planeObj r _. repeat split. }
  specialize (H Hbody rng).
  set (geometries := fst (cloudGeometries Math_cos Math_sin rng)) in *.
  clearbody geometries.
  clear -H. induction H; constructor; assumption.
Qed.

Lemma createClouds_geometry (settings : Settings) (cloudTexture : Texture)
    (rng : RNG) (s : SceneState) :
  exists s' mesh meshA merged,
    createClouds Math_cos Math_sin settings cloudTexture rng s
    = Some (s', snd (cloudGeometries Math_cos Math_sin rng))
    /\ var_cloudMesh s' = Some mesh
    /\ var_cloudMeshA s' = Some meshA
    /\ getGeometry mesh (heap s') = Some merged
    /\ getGeometry meshA (heap s') = Some merged
    /\ attr_position merged
       = concat (List.map attr_position
                   (fst (cloudGeometries Math_cos Math_sin rng)))
    /\ attr_uv merged
       = concat (List.map attr_uv
                   (fst (cloudGeometries Math_cos Math_sin rng)))
    /\ index merged
       = mergeIndex 0 (fst (cloudGeometries Math_cos Math_sin rng)).
Proof.
  destruct (createClouds_spec Math_cos Math_sin settings cloudTexture rng s)
    as (s' & merged & mat & mesh & meshA & Hc & Hm & Hv & HvA & _ & Hg & _
        & _ & HA).
  exists s', mesh, meshA, merged.
  split; [exact Hc |]. split; [exact Hv |]. split; [exact HvA |].
  split; [exact Hg |].
  split; [unfold getGeometry; rewrite HA; exact Hg |].
  set (geometries := fst (cloudGeometries Math_cos Math_sin rng)) in *.
  clearbody geometries. clear -Hm.
  destruct geometries as [| geo rest]; [inversion Hm |].
  injection Hm as <-. repeat split.
Qed.

End CloudBuffers.

(** The merged index buffer is valid and keeps the quads apart: every
    index points at an existing vertex, and the six indices of quad [i]
    are the plane's two triangles (0, 2, 1) and (2, 3, 1) shifted by 4i,
    so they point at that quad's own four vertices. *)
Theorem merged_triangles_in_bounds (Math_cos Math_sin : Q -> Q)
    (settings : Settings) (cloudTexture : Texture) (rng : RNG)
    (s : SceneState) :
  exists s' rng' mesh merged,
    createClouds Math_cos Math_sin settings cloudTexture rng s
    = Some (s', rng')
    /\ var_cloudMesh s' = Some mesh
    /\ getGeometry mesh (heap s') = Some merged
    /\ Forall (fun j => (j < length (attr_position merged))%nat)
              (index merged)
    /\ (forall i k j,
          (i < cloudCount)%nat ->
          [0; 2; 1; 2; 3; 1]%nat !! k = Some j ->
          index merged !! (6 * i + k)%nat = Some (4 * i + j)%nat
          /\ (4 * i <= 4 * i + j < 4 * i + 4)%nat).
Proof.
  destruct (createClouds_geometry Math_cos Math_sin settings cloudTexture
              rng s)
    as (s' & mesh & meshA & merged & Hc & Hv & _ & Hg & _ & Hp & _ & Hi).
  pose proof (cloudGeometries_copies Math_cos Math_sin rng) as Hcopies.
  destruct (cloudGeometries_shape Math_cos Math_sin rng) as [Hlen _].
  exists s', (snd (cloudGeometries Math_cos Math_sin rng)), mesh, merged.
  split; [exact Hc |]. split; [exact Hv |]. split; [exact Hg |].
  set (geometries := fst (cloudGeometries Math_cos Math_sin rng)) in *.
  clearbody geometries. clear Hc Hv Hg.
  assert (H4 : Forall (fun geo =>
                         index geo = [0; 2; 1; 2; 3; 1]%nat
                         /\ length (attr_position geo) = 4%nat)
                      geometries).
  { eapply Forall_impl; [| exact Hcopies]. intros geo (A & _ & B).
    now split. }
  assert (Hlp : length (attr_position merged) = (4 * length geometries)%nat).
  { rewrite Hp. rewrite (concat_length_const _ 4), length_map;
      [reflexivity |].
    apply Forall_map. eapply Forall_impl; [| exact H4].
    intros geo [_ B]. exact B. }
  split.
  - rewrite Hi, Hlp.
    assert (Hidx : Forall (fun j => (j < 4)%nat) [0; 2; 1; 2; 3; 1]%nat)
      by (repeat constructor).
    pose proof (mergeIndex_bounded [0; 2; 1; 2; 3; 1]%nat 4 geometries
                  Hidx H4 0%nat) as B.
    eapply Forall_impl; [| exact B]. intros j Hj. cbv beta in *. lia.
  - intros i k j Hlt Hk. split.
    + rewrite Hi.
      assert (Hlt' : (i < length geometries)%nat)
        by (rewrite Hlen; exact Hlt).
      pose proof (mergeIndex_lookup [0; 2; 1; 2; 3; 1]%nat 4 geometries H4
                    0 i k j Hlt' Hk) as M.
      cbn [length] in M. rewrite M. f_equal. lia.
    + assert (j < 4)%nat; [| lia].
      do 6 (destruct k as [| k];
            [cbn in Hk; injection Hk as <-; lia | cbn in Hk]).
      destruct k; inversion Hk.
Qed.

(** Merging keeps the texture coordinates aligned with the vertices:
    there is one uv per vertex, and vertex 4i + k of the merged geometry
    carries the uv of the plane's corner k, so every quad shows the whole
    texture. *)
Theorem merged_uv_aligned (Math_cos Math_sin : Q -> Q)
    (settings : Settings) (cloudTexture : Texture) (rng : RNG)
    (s : SceneState) :
  exists s' rng' mesh merged,
    createClouds Math_cos Math_sin settings cloudTexture rng s
    = Some (s', rng')
    /\ var_cloudMesh s' = Some mesh
    /\ getGeometry mesh (heap s') = Some merged
    /\ length (attr_uv merged) = length (attr_position merged)
    /\ (forall i k,
          (i < cloudCount)%nat -> (k < 4)%nat ->
          attr_uv merged !! (4 * i + k)%nat
          = [(0, 1); (1, 1); (0, 0); (1, 0)] !! k).
Proof.
  destruct (createClouds_geometry Math_cos Math_sin settings cloudTexture
              rng s)
    as (s' & mesh & meshA & merged & Hc & Hv & _ & Hg & _ & Hp & Hu & _).
  pose proof (cloudGeometries_copies Math_cos Math_sin rng) as Hcopies.
  destruct (cloudGeometries_shape Math_cos Math_sin rng) as [Hlen _].
  exists s', (snd (cloudGeometries Math_cos Math_sin rng)), mesh, merged.
  split; [exact Hc |]. split; [exact Hv |]. split; [exact Hg |].
  set (geometries := fst (cloudGeometries Math_cos Math_sin rng)) in *.
  clearbody geometries. clear Hc Hv Hg.
  assert (HU : Forall (fun l => l = [(0, 1); (1, 1); (0, 0); (1, 0)])
                      (List.map attr_uv geometries)).
  { apply Forall_map. eapply Forall_impl; [| exact Hcopies].
    intros geo (_ & A & _). exact A. }
  split.
  - rewrite Hp, Hu.
    rewrite (concat_length_const _ 4), (concat_length_const _ 4).
    + now rewrite !length_map.
    + apply Forall_map. eapply Forall_impl; [| exact Hcopies].
      intros geo (_ & _ & A). exact A.
    + eapply Forall_impl; [| exact HU]. intros l ->. reflexivity.
  - intros i k Hi Hk. rewrite Hu.
    assert (Hi' : (i < length (List.map attr_uv geometries))%nat)
      by (rewrite length_map, Hlen; exact Hi).
    exact (concat_lookup_same _ [(0, 1); (1, 1); (0, 0); (1, 0)] i k HU
             Hi' Hk).
Qed.

(** ** Cloud field: the heap, the material and start-up *)

Section CloudObjects.

Variables Math_cos Math_sin : Q -> Q.

Lemma createClouds_heap (settings : Settings) (cloudTexture : Texture)
    (rng : RNG) (s : SceneState) :
  exists s' merged mesh meshA,
    createClouds Math_cos Math_sin settings cloudTexture rng s
    = Some (s', snd (cloudGeometries Math_cos Math_sin rng))
    /\ var_cloudMesh s' = Some mesh
    /\ var_cloudMeshA s' = Some meshA
    /\ var_cloudMaterial s' = Some (material mesh)
    /\ material meshA = material mesh
    /\ geometry mesh = fresh (dom (geometries (heap s)))
    /\ material mesh = fresh (dom (materials (heap s)))
    /\ geometries (heap s')
       = <[geometry mesh := merged]> (geometries (heap s))
    /\ materials (heap s')
       = <[material mesh :=
             {| uniforms :=
                  {[ "map" := UTexture cloudTexture;
                     "fogColor" := UColor (Color_ofHex (fogColor settings));
                     "fogNear" := UFloat (fogNear settings);
                     "fogFar" := UFloat (fogFar settings);
                     "shaderPower" := UFloat (shaderPower settings);
                     "cloudOpacity" := UFloat (cloudOpacity settings) ]};
                depthWrite := false;
                depthTest := false;
                transparent := true |}]> (materials (heap s))
    /\ scene_fog (scene s')
       = Some {| Fog.color := Color_ofHex (fogColor settings);
                 Fog.near := fogNear settings;
                 Fog.far := fogFar settings |}
    /\ var_fog s' = scene_fog (scene s')
    /\ children (scene s') = children (scene s) ++ [mesh; meshA].
Proof.
  destruct (cloudGeometries_shape Math_cos Math_sin rng) as [Hlen Hshape].
  assert (Hne : fst (cloudGeometries Math_cos Math_sin rng) <> []).
  { intros E. rewrite E in Hlen. cbn [length] in Hlen.
    pose proof cloudCount_pos. lia. }
  destruct (mergeGeometries_quads _ Hne Hshape) as (merged & Hm & _).
  unfold createClouds, alloc_material, alloc_geometry.
  destruct (cloudGeometries Math_cos Math_sin rng) as [geos rng'].
  cbn [fst snd] in *. rewrite Hm.
  eexists _, merged, _, _.
  split; [reflexivity |].
  cbn [var_cloudMesh var_cloudMeshA var_cloudMaterial var_fog scene heap
       children scene_fog geometries materials geometry material mesh_base
       Mesh_new set_mesh_base Mesh_clone Fog.color Fog.near Fog.far].
  repeat (split; [reflexivity |]).
  now rewrite <- app_assoc.
Qed.

End CloudObjects.

(** Building the cloud field allocates: the merged geometry and the
    material get references that were not in use, every object already in
    the heap is still found under its reference, unchanged, and the
    meshes already in the scene keep their places before the two new
    ones.  A second call therefore builds a second, separate field. *)
Theorem cloud_field_allocates_fresh (Math_cos Math_sin : Q -> Q)
    (settings : Settings) (cloudTexture : Texture) (rng : RNG)
    (s : SceneState) :
  exists s' rng' mesh meshA,
    createClouds Math_cos Math_sin settings cloudTexture rng s
    = Some (s', rng')
    /\ var_cloudMesh s' = Some mesh
    /\ var_cloudMeshA s' = Some meshA
    /\ geometries (heap s) !! geometry mesh = None
    /\ materials (heap s) !! material mesh = None
    /\ (forall r geo,
          geometries (heap s) !! r = Some geo ->
          geometries (heap s') !! r = Some geo)
    /\ (forall r mat,
          materials (heap s) !! r = Some mat ->
          materials (heap s') !! r = Some mat)
    /\ (forall old name,
          is_Some (materials (heap s) !! material old) ->
          getUniform old name (heap s') = getUniform old name (heap s))
    /\ children (scene s') = children (scene s) ++ [mesh; meshA].
Proof.
  destruct (createClouds_heap Math_cos Math_sin settings cloudTexture rng s)
    as (s' & merged & mesh & meshA & Hc & Hv & HvA & _ & _ & Hg & Hm & HG
        & HM & _ & _ & Hch).
  exists s', (snd (cloudGeometries Math_cos Math_sin rng)), mesh, meshA.
  assert (FG : geometries (heap s) !! geometry mesh = None).
  { rewrite Hg. apply not_elem_of_dom. apply is_fresh. }
  assert (FM : materials (heap s) !! material mesh = None).
  { rewrite Hm. apply not_elem_of_dom. apply is_fresh. }
  split; [exact Hc |]. split; [exact Hv |]. split; [exact HvA |].
  split; [exact FG |]. split; [exact FM |].
  split; [| split; [| split; [| exact Hch]]].
  - intros r geo Hr. rewrite HG. rewrite lookup_insert_ne; [exact Hr |].
    intros E. subst r.
    assert (X : Some geo = None)
      by (transitivity (geometries (heap s) !! geometry mesh);
          [symmetry; exact Hr | exact FG]).
    discriminate X.
  - intros r mat Hr. rewrite HM. rewrite lookup_insert_ne; [exact Hr |].
    intros E. subst r.
    assert (X : Some mat = None)
      by (transitivity (materials (heap s) !! material mesh);
          [symmetry; exact Hr | exact FM]).
    discriminate X.
  - intros old name [mat Hold]. unfold getUniform.
    rewrite HM. rewrite lookup_insert_ne; [reflexivity |].
    intros E.
    assert (X : Some mat = None)
      by (transitivity (materials (heap s) !! material old);
          [symmetry; exact Hold | rewrite <- E; exact FM]).
    discriminate X.
Qed.

(** The cloud material is set up from the settings and agrees with the
    scene fog: read through either mesh, the fog uniforms hold the
    scene fog's colour, near and far values, the other three hold the
    texture, the exponent and the opacity, and a name that is not one of
    the six reads as absent. *)
Theorem uniforms_follow_settings (Math_cos Math_sin : Q -> Q)
    (settings : Settings) (cloudTexture : Texture) (rng : RNG)
    (s : SceneState) :
  exists s' rng' mesh meshA fog,
    createClouds Math_cos Math_sin settings cloudTexture rng s
    = Some (s', rng')
    /\ var_cloudMesh s' = Some mesh
    /\ var_cloudMeshA s' = Some meshA
    /\ scene_fog (scene s') = Some fog
    /\ var_fog s' = Some fog
    /\ fog = {| Fog.color := Color_ofHex (fogColor settings);
                Fog.near := fogNear settings;
                Fog.far := fogFar settings |}
    /\ (forall m, m = mesh \/ m = meshA ->
          getUniform m "map" (heap s') = Some (UTexture cloudTexture)
          /\ getUniform m "fogColor" (heap s') = Some (UColor (Fog.color fog))
          /\ getUniform m "fogNear" (heap s') = Some (UFloat (Fog.near fog))
          /\ getUniform m "fogFar" (heap s') = Some (UFloat (Fog.far fog))
          /\ getUniform m "shaderPower" (heap s')
             = Some (UFloat (shaderPower settings))
          /\ getUniform m "cloudOpacity" (heap s')
             = Some (UFloat (cloudOpacity settings))
          /\ (forall name,
                ~ In name ["map"; "fogColor"; "fogNear"; "fogFar";
                           "shaderPower"; "cloudOpacity"] ->
                getUniform m name (heap s') = None)).
Proof.
  destruct (createClouds_heap Math_cos Math_sin settings cloudTexture rng s)
    as (s' & merged & mesh & meshA & Hc & Hv & HvA & _ & HmA & _ & _ & _
        & HM & Hfog & Hvf & _).
  exists s', (snd (cloudGeometries Math_cos Math_sin rng)), mesh, meshA.
  eexists. split; [exact Hc |]. split; [exact Hv |]. split; [exact HvA |].
  split; [exact Hfog |]. split; [rewrite Hvf; exact Hfog |].
  split; [reflexivity |].
  intros m Hm.
  assert (Em : material m = material mesh) by (destruct Hm; subst; auto).
  unfold getUniform. rewrite Em, HM, lookup_insert_eq.
  cbn [mbind option_bind uniforms Fog.color Fog.near Fog.far].
  clear Hc Hv HvA Hfog Hvf HM Em Hm HmA.
  repeat split;
    try (repeat (rewrite lookup_insert_ne by (intros E; discriminate E));
         first [apply lookup_insert_eq | apply lookup_singleton_eq]).
  intros name Hname. simpl in Hname.
  repeat (rewrite lookup_insert_ne by (intros E; apply Hname; auto 10)).
  apply lookup_singleton_ne. intros E. apply Hname. auto 10.
Qed.

(** Start-up cannot fail, and its first tick already overrides the depth
    the camera was created at: after [init] the camera is on the axis at
    the depth given by the elapsed time (8000 when the clock has not
    moved since [startTime] was sampled, not the 6000 it was created
    with), two frames have been rasterised, the background is painted,
    and the scene holds the two cloud meshes. *)
Theorem init_first_frame (Math_cos Math_sin : Q -> Q) (settings : Settings)
    (cloudTexture : Texture) (rng : RNG) (w : Window) (t0 now : Q) :
  exists g' s' rng' mesh meshA,
    init Math_cos Math_sin settings cloudTexture now rng (start w t0)
      SceneState_start
    = Some (g', s', rng')
    /\ camX g' == 0 /\ camY g' == 0
    /\ camZ g' == cameraDepth (now - t0)
    /\ (now == t0 -> camZ g' == 8000)
    /\ frames (renderer g') = 2%nat
    /\ background g' = Some {| width := 32; height := innerHeight w |}
    /\ var_cloudMesh s' = Some mesh
    /\ var_cloudMeshA s' = Some meshA
    /\ children (scene s') = [mesh; meshA].
Proof.
  destruct (createClouds_heap Math_cos Math_sin settings cloudTexture rng
              SceneState_start)
    as (s' & merged & mesh & meshA & Hc & Hv & HvA & _ & _ & _ & _ & _ & _
        & _ & _ & Hch).
  exists (animate now (createBackground (start w t0))), s',
    (snd (cloudGeometries Math_cos Math_sin rng)), mesh, meshA.
  split; [unfold init; rewrite Hc; reflexivity |].
  split; [reflexivity |]. split; [reflexivity |].
  split; [reflexivity |].
  split.
  { intros E. rewrite animate_camZ.
    change (startTime (createBackground (start w t0))) with t0.
    rewrite (cameraDepth_comp (now - t0) 0) by lra. reflexivity. }
  split; [reflexivity |]. split; [reflexivity |].
  split; [exact Hv |]. split; [exact HvA |]. exact Hch.
Qed.

(** ** The two layers in the scene *)

Section Layers.

Variables Math_cos Math_sin : Q -> Q.

(** [Math.sin] of zero is zero. *)
Hypothesis Math_sin_0 : forall q : Q, q == 0 -> Math_sin q == 0.

(** An object that is neither rotated nor scaled puts its vertices at
    their own coordinates plus its position. *)
Lemma worldVertex_translation (m : Mesh) (v : Vector3.t) :
  rotation (mesh_base m) = Euler.mk 0 0 0 ->
  scale (mesh_base m) = Vector3.mk 1 1 1 ->
  let p := position (mesh_base m) in
  let v' := Mesh_worldVertex Math_cos Math_sin m v in
  Vector3.x v' == Vector3.x v + Vector3.x p
  /\ Vector3.y v' == Vector3.y v + Vector3.y p
  /\ Vector3.z v' == Vector3.z v + Vector3.z p.
Proof.
  intros Hr Hs. cbv zeta. unfold Mesh_worldVertex, updateMatrix.
  cbn [matrix set_matrix]. rewrite Hr, Hs.
  assert (S1 : Math_sin (0 / 2) == 0) by (apply Math_sin_0; reflexivity).
  set (q := setFromEuler Math_cos Math_sin (Euler.mk 0 0 0)).
  assert (Hqx : Quaternion.x q == 0).
  { unfold q, setFromEuler. cbn -[Qdiv]. rewrite S1. ring. }
  assert (Hqy : Quaternion.y q == 0).
  { unfold q, setFromEuler. cbn -[Qdiv]. rewrite S1. ring. }
  assert (Hqz : Quaternion.z q == 0).
  { unfold q, setFromEuler. cbn -[Qdiv]. rewrite S1. ring. }
  destruct q as [qx qy qz qw]. cbn [Quaternion.x Quaternion.y Quaternion.z]
    in Hqx, Hqy, Hqz.
  unfold Vector3_applyMatrix4, compose.
  cbn [Matrix4.e0 Matrix4.e1 Matrix4.e2 Matrix4.e3 Matrix4.e4 Matrix4.e5
       Matrix4.e6 Matrix4.e7 Matrix4.e8 Matrix4.e9 Matrix4.e10 Matrix4.e11
       Matrix4.e12 Matrix4.e13 Matrix4.e14 Matrix4.e15
       Quaternion.x Quaternion.y Quaternion.z Quaternion.w
       Vector3.x Vector3.y Vector3.z].
  rewrite Hqx, Hqy, Hqz. repeat split; field.
Qed.

End Layers.

(** The far layer is the near layer moved back by exactly one loop
    length: a vertex of the shared geometry appears through the first
    mesh at its own coordinates and through the second mesh at the same x
    and y and at z - 8000.  So the far layer seen from camera depth [d]
    lies where the near layer lies seen from depth [d + 8000], which is
    what makes the wrap of the camera from depth 0 back to 8000
    seamless. *)
Theorem far_layer_is_shifted_copy (Math_cos Math_sin : Q -> Q)
    (settings : Settings) (cloudTexture : Texture) (rng : RNG)
    (s : SceneState) :
  (forall q : Q, q == 0 -> Math_sin q == 0) ->
  exists s' rng' mesh meshA,
    createClouds Math_cos Math_sin settings cloudTexture rng s
    = Some (s', rng')
    /\ var_cloudMesh s' = Some mesh
    /\ var_cloudMeshA s' = Some meshA
    /\ forall v : Vector3.t,
         let near := Mesh_worldVertex Math_cos Math_sin mesh v in
         let far := Mesh_worldVertex Math_cos Math_sin meshA v in
         (Vector3.x near == Vector3.x v /\ Vector3.y near == Vector3.y v
          /\ Vector3.z near == Vector3.z v)
         /\ (Vector3.x far == Vector3.x near
             /\ Vector3.y far == Vector3.y near
             /\ Vector3.z far == Vector3.z near - 8000)
         /\ (forall d : Q,
               Vector3.z far - d == Vector3.z near - (d + 8000)).
Proof.
  intros Hsin.
  destruct (createClouds_spec Math_cos Math_sin settings cloudTexture rng s)
    as (s' & merged & mat & mesh & meshA & Hc & _ & Hv & HvA & _ & _ & _
        & Hbase & HA).
  exists s', (snd (cloudGeometries Math_cos Math_sin rng)), mesh, meshA.
  split; [exact Hc |]. split; [exact Hv |]. split; [exact HvA |].
  assert (Pm : position (mesh_base mesh) = Vector3.mk 0 0 0)
    by (rewrite Hbase; reflexivity).
  assert (PA : position (mesh_base meshA) = Vector3.mk 0 0 (-8000))
    by (rewrite HA, Hbase; reflexivity).
  intros v. cbv zeta.
  destruct (worldVertex_translation Math_cos Math_sin Hsin mesh v)
    as (Nx & Ny & Nz); [rewrite Hbase; reflexivity .. |].
  destruct (worldVertex_translation Math_cos Math_sin Hsin meshA v)
    as (Fx & Fy & Fz); [rewrite HA, Hbase; reflexivity .. |].
  rewrite Pm in Nx, Ny, Nz. rewrite PA in Fx, Fy, Fz.
  cbn [Vector3.x Vector3.y Vector3.z] in Nx, Ny, Nz, Fx, Fy, Fz.
  set (near := Mesh_worldVertex Math_cos Math_sin mesh v) in *.
  set (far := Mesh_worldVertex Math_cos Math_sin meshA v) in *.
  clearbody near far.
  split; [repeat split; lra |]. split; [repeat split; lra |].
  intros d. lra.
Qed.

Lemma far_layer_is_shifted_copy_witness :
  exists s' rng' mesh meshA,
    createClouds (fun _ => 1) (fun q => q) cloudSettings exampleTexture
      exampleRNG SceneState_start
    = Some (s', rng')
    /\ var_cloudMesh s' = Some mesh
    /\ var_cloudMeshA s' = Some meshA.
Proof.
  destruct (far_layer_is_shifted_copy (fun _ => 1) (fun q => q)
              cloudSettings exampleTexture exampleRNG SceneState_start)
    as (s' & rng' & mesh & meshA & Hc & Hv & HvA & _).
  - intros q Hq. exact Hq.
  - exists s', rng', mesh, meshA. repeat split; assumption.
Defined.
